(** * chips: the m6502 and Z80 CPU cores (m6502.h, z80.h)

    A shallow embedding of the two header-only emulators.  Machine
    integers are values of [Z]; every store into a [uint8_t], [uint16_t]
    or [uint32_t] lvalue is written out as a reduction modulo the width.
    C's bit operators become [Z.land], [Z.lor], [Z.lxor], [Z.shiftl],
    [Z.shiftr] and [Z.lnot] (two's complement on [Z], which agrees with
    C on the small [int] values the ALU macros see). *)

From Stdlib Require Import ZArith List Bool Lia.
Import ListNotations.
Local Open Scope Z_scope.

(** ** Fixed-width stores *)

Definition u8  (x : Z) : Z := x mod 2 ^ 8.
Definition u16 (x : Z) : Z := x mod 2 ^ 16.
Definition u32 (x : Z) : Z := x mod 2 ^ 32.

Definition is_u8  (x : Z) : Prop := 0 <= x < 2 ^ 8.
Definition is_u16 (x : Z) : Prop := 0 <= x < 2 ^ 16.

(** A flag or pin mask [m] is "set" in [f] when [f & m] is non-zero. *)
Definition flag_set (f m : Z) : bool := negb (Z.land f m =? 0).

(** * The 6502 core (m6502.h) *)

Module M6502.

(** ** Pins and flags *)

Definition M6502_RW  : Z := Z.shiftl 1 24.
Definition M6502_IRQ : Z := Z.shiftl 1 25.
Definition M6502_NMI : Z := Z.shiftl 1 26.

Definition M6502_PIN_MASK : Z := 0xFFFFFFFF.

Definition M6502_CF : Z := Z.shiftl 1 0.
Definition M6502_ZF : Z := Z.shiftl 1 1.
Definition M6502_IF : Z := Z.shiftl 1 2.
Definition M6502_DF : Z := Z.shiftl 1 3.
Definition M6502_BF : Z := Z.shiftl 1 4.
Definition M6502_XF : Z := Z.shiftl 1 5.
Definition M6502_VF : Z := Z.shiftl 1 6.
Definition M6502_NF : Z := Z.shiftl 1 7.

(** ** Pin packing macros *)

(** [#define M6502_GET_ADDR(p) ((uint16_t)(p&0xFFFFULL))] *)
Definition M6502_GET_ADDR (p : Z) : Z := u16 (Z.land p 0xFFFF).

(** [#define M6502_SET_ADDR(p,a) {p=((p&~0xFFFFULL)|(a&0xFFFFULL));}] *)
Definition M6502_SET_ADDR (p a : Z) : Z :=
  Z.lor (Z.land p (Z.lnot 0xFFFF)) (Z.land a 0xFFFF).

(** [#define M6502_GET_DATA(p) ((uint8_t)((p&0xFF0000ULL)>>16))] *)
Definition M6502_GET_DATA (p : Z) : Z := u8 (Z.shiftr (Z.land p 0xFF0000) 16).

(** [#define M6502_SET_DATA(p,d) {p=((p&~0xFF0000ULL)|((d<<16)&0xFF0000ULL));}] *)
Definition M6502_SET_DATA (p d : Z) : Z :=
  Z.lor (Z.land p (Z.lnot 0xFF0000)) (Z.land (Z.shiftl d 16) 0xFF0000).

(** [#define M6502_MAKE_PINS(ctrl, addr, data)
       ((ctrl)|((data<<16)&0xFF0000ULL)|(addr&0xFFFFULL))] *)
Definition M6502_MAKE_PINS (ctrl addr data : Z) : Z :=
  Z.lor (Z.lor ctrl (Z.land (Z.shiftl data 16) 0xFF0000)) (Z.land addr 0xFFFF).

(** The control pins the header declares (RW, IRQ, NMI), and what it
    means for a pin word to be built from them only. *)
Definition M6502_CTRL_PINS : Z := Z.lor (Z.lor M6502_RW M6502_IRQ) M6502_NMI.

Definition ctrl_set (ctrl : Z) : Prop := Z.land ctrl M6502_CTRL_PINS = ctrl.

(** ** CPU state

    [m6502_t] without its [tick] member: the callback is a parameter of
    the operations below, and no operation reassigns it. *)
Record m6502_t : Type := mk_m6502 {
  PINS : Z;
  A : Z; X : Z; Y : Z; S : Z; P : Z;
  PC : Z;
  irq_taken : bool;
  break_mask : Z
}.

(** Field stores, one per member that [m6502_reset] assigns. *)
Definition set_PINS (c : m6502_t) (v : Z) : m6502_t :=
  {| PINS := v; A := A c; X := X c; Y := Y c; S := S c; P := P c;
     PC := PC c; irq_taken := irq_taken c; break_mask := break_mask c |}.
Definition set_S (c : m6502_t) (v : Z) : m6502_t :=
  {| PINS := PINS c; A := A c; X := X c; Y := Y c; S := v; P := P c;
     PC := PC c; irq_taken := irq_taken c; break_mask := break_mask c |}.
Definition set_P (c : m6502_t) (v : Z) : m6502_t :=
  {| PINS := PINS c; A := A c; X := X c; Y := Y c; S := S c; P := v;
     PC := PC c; irq_taken := irq_taken c; break_mask := break_mask c |}.
Definition set_PC (c : m6502_t) (v : Z) : m6502_t :=
  {| PINS := PINS c; A := A c; X := X c; Y := Y c; S := S c; P := P c;
     PC := v; irq_taken := irq_taken c; break_mask := break_mask c |}.
Definition set_irq_taken (c : m6502_t) (v : bool) : m6502_t :=
  {| PINS := PINS c; A := A c; X := X c; Y := Y c; S := S c; P := P c;
     PC := PC c; irq_taken := v; break_mask := break_mask c |}.

Section Core.

(** The tick callback maps a [uint64_t] pin word to a [uint64_t] pin
    word.  Whatever the host keeps behind it (memory, devices) is the
    world [Host], threaded through each call. *)
Variable Host : Type.
Variable tick : Host -> Z -> Host * Z.

(** [m6502_init]: [memset] to zero, then the power-on values. *)
Definition m6502_init : m6502_t :=
  let c := {| PINS := 0; A := 0; X := 0; Y := 0; S := 0; P := 0;
              PC := 0; irq_taken := false; break_mask := 0 |} in
  let c := set_PINS c M6502_RW in
  let c := set_P c (u8 (Z.lor M6502_IF M6502_XF)) in
  set_S c (u8 0xFD).

(** [m6502_reset].  The two pin words the callback returns are used for
    their data byte only; [c->PINS] keeps [M6502_RW]. *)
Definition m6502_reset (c : m6502_t) (w : Host) : m6502_t * Host :=
  let c := set_irq_taken c false in
  let c := set_P c (u8 (Z.lor M6502_IF M6502_XF)) in
  let c := set_S c (u8 0xFD) in
  let c := set_PINS c M6502_RW in
  let '(w, p) := tick w (M6502_MAKE_PINS M6502_RW 0xFFFC 0x00) in
  let l := M6502_GET_DATA p in
  let '(w, p) := tick w (M6502_MAKE_PINS M6502_RW 0xFFFD 0x00) in
  let h := M6502_GET_DATA p in
  (set_PC c (u16 (Z.lor (Z.shiftl h 8) l)), w).

End Core.

(** A host for concrete runs: a flat read-only memory, the world being
    the number of ticks served so far. *)
Definition rom_tick (mem : Z -> Z) (w : nat) (pins : Z) : nat * Z :=
  (Datatypes.S w,
   if flag_set pins M6502_RW
   then M6502_SET_DATA pins (mem (M6502_GET_ADDR pins))
   else pins).

(** Reset vector [0x0200] at [0xFFFC]/[0xFFFD], [LDA #$42] at [0x0200]. *)
Definition demo_mem (a : Z) : Z :=
  if a =? 0xFFFC then 0x00
  else if a =? 0xFFFD then 0x02
  else if a =? 0x0200 then 0xA9
  else if a =? 0x0201 then 0x42
  else 0.

End M6502.

(** * The Z80 core (z80.h) *)

Module Z80.

(** ** Status flags and pins *)

Definition Z80_CF : Z := Z.shiftl 1 0.
Definition Z80_NF : Z := Z.shiftl 1 1.
Definition Z80_VF : Z := Z.shiftl 1 2.
Definition Z80_PF : Z := Z80_VF.
Definition Z80_XF : Z := Z.shiftl 1 3.
Definition Z80_HF : Z := Z.shiftl 1 4.
Definition Z80_YF : Z := Z.shiftl 1 5.
Definition Z80_ZF : Z := Z.shiftl 1 6.
Definition Z80_SF : Z := Z.shiftl 1 7.

Definition Z80_M1     : Z := Z.shiftl 1 0.
Definition Z80_MREQ   : Z := Z.shiftl 1 1.
Definition Z80_IORQ   : Z := Z.shiftl 1 2.
Definition Z80_RD     : Z := Z.shiftl 1 3.
Definition Z80_WR     : Z := Z.shiftl 1 4.
Definition Z80_RFSH   : Z := Z.shiftl 1 5.
Definition Z80_HALT   : Z := Z.shiftl 1 6.
Definition Z80_WAIT   : Z := Z.shiftl 1 7.
Definition Z80_INT    : Z := Z.shiftl 1 8.
Definition Z80_NMI    : Z := Z.shiftl 1 9.
Definition Z80_RESET  : Z := Z.shiftl 1 10.
Definition Z80_BUSREQ : Z := Z.shiftl 1 11.
Definition Z80_BUSACK : Z := Z.shiftl 1 12.

(** ** Flag macros

    [res] is a C [int]; for byte operands it stays within [-256, 511],
    so no [int] wrap-around is involved and [>>] on a negative [res] is
    the arithmetic shift [Z.shiftr] computes. *)

(** [#define _SZ(val) ((val&0xFF)?(val&Z80_SF):Z80_ZF)] *)
Definition _SZ (val : Z) : Z :=
  if Z.land val 0xFF =? 0 then Z80_ZF else Z.land val Z80_SF.

(** [#define _SZYXCH(acc,val,res)
       (_SZ(res)|(res&(Z80_YF|Z80_XF))|((res>>8)&Z80_CF)|((acc^val^res)&Z80_HF))] *)
Definition _SZYXCH (acc val res : Z) : Z :=
  Z.lor (Z.lor (Z.lor (_SZ res)
                      (Z.land res (Z.lor Z80_YF Z80_XF)))
               (Z.land (Z.shiftr res 8) Z80_CF))
        (Z.land (Z.lxor (Z.lxor acc val) res) Z80_HF).

(** [#define _ADD_FLAGS(acc,val,res)
       (_SZYXCH(acc,val,res)|((((val^acc^0x80)&(val^res))>>5)&Z80_VF))] *)
Definition _ADD_FLAGS (acc val res : Z) : Z :=
  Z.lor (_SZYXCH acc val res)
        (Z.land (Z.shiftr (Z.land (Z.lxor (Z.lxor val acc) 0x80)
                                  (Z.lxor val res)) 5) Z80_VF).

(** [#define _SUB_FLAGS(acc,val,res)
       (Z80_NF|_SZYXCH(acc,val,res)|((((val^acc)&(res^acc))>>5)&Z80_VF))] *)
Definition _SUB_FLAGS (acc val res : Z) : Z :=
  Z.lor (Z.lor Z80_NF (_SZYXCH acc val res))
        (Z.land (Z.shiftr (Z.land (Z.lxor val acc) (Z.lxor res acc)) 5) Z80_VF).

(** [#define _CP_FLAGS(acc,val,res)
       (Z80_NF|(_SZ(res)|(val&(Z80_YF|Z80_XF))|((res>>8)&Z80_CF)|((acc^val^res)&Z80_HF))
        |((((val^acc)&(res^acc))>>5)&Z80_VF))] *)
Definition _CP_FLAGS (acc val res : Z) : Z :=
  Z.lor (Z.lor Z80_NF
               (Z.lor (Z.lor (Z.lor (_SZ res)
                                    (Z.land val (Z.lor Z80_YF Z80_XF)))
                             (Z.land (Z.shiftr res 8) Z80_CF))
                      (Z.land (Z.lxor (Z.lxor acc val) res) Z80_HF)))
        (Z.land (Z.shiftr (Z.land (Z.lxor val acc) (Z.lxor res acc)) 5) Z80_VF).

(** The flag bits a subtraction defines from its result, and the two
    undocumented ones. *)
Definition Z80_SZHVNC : Z :=
  Z.lor (Z.lor (Z.lor (Z.lor (Z.lor Z80_SF Z80_ZF) Z80_HF) Z80_VF) Z80_NF) Z80_CF.
Definition Z80_YX : Z := Z.lor Z80_YF Z80_XF.

Section State.

(** What the host hangs on [void* context]. *)
Context {Ctx : Type}.

(** ** CPU state

    [struct _z80], one field per byte of the main register bank in the
    order the struct lays them out, so that [r8[i]] is the [i]-th field:
    [C, B, E, D, L, H, A, F].  The 16-bit views of the unions ([HL],
    [IR]) are derived below for a little-endian host.  [IX] and [IY] are
    kept whole: no code in the header touches their halves.  The [tick]
    member is a parameter of the operations; nothing reassigns it. *)
Record z80 : Type := mk_z80 {
  C : Z; B : Z; E : Z; D : Z; L : Z; H : Z; A : Z; F : Z;
  BC_ : Z; DE_ : Z; HL_ : Z; AF_ : Z;
  WZ : Z; WZ_ : Z;
  IX : Z; IY : Z;
  R : Z; I : Z;
  SP : Z; PC : Z;
  CTRL : Z; ADDR : Z; DATA : Z;
  im : Z; imm1 : bool; imm2 : bool;
  ticks : Z;
  context : Ctx
}.

(** Field stores. *)
Definition set_C (c : z80) (v : Z) : z80 :=
  {| C := v; B := B c; E := E c; D := D c; L := L c; H := H c; A := A c;
     F := F c; BC_ := BC_ c; DE_ := DE_ c; HL_ := HL_ c; AF_ := AF_ c;
     WZ := WZ c; WZ_ := WZ_ c; IX := IX c; IY := IY c; R := R c; I := I c;
     SP := SP c; PC := PC c; CTRL := CTRL c; ADDR := ADDR c;
     DATA := DATA c; im := im c; imm1 := imm1 c; imm2 := imm2 c;
     ticks := ticks c; context := context c |}.
Definition set_B (c : z80) (v : Z) : z80 :=
  {| C := C c; B := v; E := E c; D := D c; L := L c; H := H c; A := A c;
     F := F c; BC_ := BC_ c; DE_ := DE_ c; HL_ := HL_ c; AF_ := AF_ c;
     WZ := WZ c; WZ_ := WZ_ c; IX := IX c; IY := IY c; R := R c; I := I c;
     SP := SP c; PC := PC c; CTRL := CTRL c; ADDR := ADDR c;
     DATA := DATA c; im := im c; imm1 := imm1 c; imm2 := imm2 c;
     ticks := ticks c; context := context c |}.
Definition set_E (c : z80) (v : Z) : z80 :=
  {| C := C c; B := B c; E := v; D := D c; L := L c; H := H c; A := A c;
     F := F c; BC_ := BC_ c; DE_ := DE_ c; HL_ := HL_ c; AF_ := AF_ c;
     WZ := WZ c; WZ_ := WZ_ c; IX := IX c; IY := IY c; R := R c; I := I c;
     SP := SP c; PC := PC c; CTRL := CTRL c; ADDR := ADDR c;
     DATA := DATA c; im := im c; imm1 := imm1 c; imm2 := imm2 c;
     ticks := ticks c; context := context c |}.
Definition set_D (c : z80) (v : Z) : z80 :=
  {| C := C c; B := B c; E := E c; D := v; L := L c; H := H c; A := A c;
     F := F c; BC_ := BC_ c; DE_ := DE_ c; HL_ := HL_ c; AF_ := AF_ c;
     WZ := WZ c; WZ_ := WZ_ c; IX := IX c; IY := IY c; R := R c; I := I c;
     SP := SP c; PC := PC c; CTRL := CTRL c; ADDR := ADDR c;
     DATA := DATA c; im := im c; imm1 := imm1 c; imm2 := imm2 c;
     ticks := ticks c; context := context c |}.
Definition set_L (c : z80) (v : Z) : z80 :=
  {| C := C c; B := B c; E := E c; D := D c; L := v; H := H c; A := A c;
     F := F c; BC_ := BC_ c; DE_ := DE_ c; HL_ := HL_ c; AF_ := AF_ c;
     WZ := WZ c; WZ_ := WZ_ c; IX := IX c; IY := IY c; R := R c; I := I c;
     SP := SP c; PC := PC c; CTRL := CTRL c; ADDR := ADDR c;
     DATA := DATA c; im := im c; imm1 := imm1 c; imm2 := imm2 c;
     ticks := ticks c; context := context c |}.
Definition set_H (c : z80) (v : Z) : z80 :=
  {| C := C c; B := B c; E := E c; D := D c; L := L c; H := v; A := A c;
     F := F c; BC_ := BC_ c; DE_ := DE_ c; HL_ := HL_ c; AF_ := AF_ c;
     WZ := WZ c; WZ_ := WZ_ c; IX := IX c; IY := IY c; R := R c; I := I c;
     SP := SP c; PC := PC c; CTRL := CTRL c; ADDR := ADDR c;
     DATA := DATA c; im := im c; imm1 := imm1 c; imm2 := imm2 c;
     ticks := ticks c; context := context c |}.
Definition set_A (c : z80) (v : Z) : z80 :=
  {| C := C c; B := B c; E := E c; D := D c; L := L c; H := H c; A := v;
     F := F c; BC_ := BC_ c; DE_ := DE_ c; HL_ := HL_ c; AF_ := AF_ c;
     WZ := WZ c; WZ_ := WZ_ c; IX := IX c; IY := IY c; R := R c; I := I c;
     SP := SP c; PC := PC c; CTRL := CTRL c; ADDR := ADDR c;
     DATA := DATA c; im := im c; imm1 := imm1 c; imm2 := imm2 c;
     ticks := ticks c; context := context c |}.
Definition set_F (c : z80) (v : Z) : z80 :=
  {| C := C c; B := B c; E := E c; D := D c; L := L c; H := H c; A := A c;
     F := v; BC_ := BC_ c; DE_ := DE_ c; HL_ := HL_ c; AF_ := AF_ c;
     WZ := WZ c; WZ_ := WZ_ c; IX := IX c; IY := IY c; R := R c; I := I c;
     SP := SP c; PC := PC c; CTRL := CTRL c; ADDR := ADDR c;
     DATA := DATA c; im := im c; imm1 := imm1 c; imm2 := imm2 c;
     ticks := ticks c; context := context c |}.
Definition set_R (c : z80) (v : Z) : z80 :=
  {| C := C c; B := B c; E := E c; D := D c; L := L c; H := H c; A := A c;
     F := F c; BC_ := BC_ c; DE_ := DE_ c; HL_ := HL_ c; AF_ := AF_ c;
     WZ := WZ c; WZ_ := WZ_ c; IX := IX c; IY := IY c; R := v; I := I c;
     SP := SP c; PC := PC c; CTRL := CTRL c; ADDR := ADDR c;
     DATA := DATA c; im := im c; imm1 := imm1 c; imm2 := imm2 c;
     ticks := ticks c; context := context c |}.
Definition set_PC (c : z80) (v : Z) : z80 :=
  {| C := C c; B := B c; E := E c; D := D c; L := L c; H := H c; A := A c;
     F := F c; BC_ := BC_ c; DE_ := DE_ c; HL_ := HL_ c; AF_ := AF_ c;
     WZ := WZ c; WZ_ := WZ_ c; IX := IX c; IY := IY c; R := R c; I := I c;
     SP := SP c; PC := v; CTRL := CTRL c; ADDR := ADDR c; DATA := DATA c;
     im := im c; imm1 := imm1 c; imm2 := imm2 c; ticks := ticks c;
     context := context c |}.
Definition set_CTRL (c : z80) (v : Z) : z80 :=
  {| C := C c; B := B c; E := E c; D := D c; L := L c; H := H c; A := A c;
     F := F c; BC_ := BC_ c; DE_ := DE_ c; HL_ := HL_ c; AF_ := AF_ c;
     WZ := WZ c; WZ_ := WZ_ c; IX := IX c; IY := IY c; R := R c; I := I c;
     SP := SP c; PC := PC c; CTRL := v; ADDR := ADDR c; DATA := DATA c;
     im := im c; imm1 := imm1 c; imm2 := imm2 c; ticks := ticks c;
     context := context c |}.
Definition set_ADDR (c : z80) (v : Z) : z80 :=
  {| C := C c; B := B c; E := E c; D := D c; L := L c; H := H c; A := A c;
     F := F c; BC_ := BC_ c; DE_ := DE_ c; HL_ := HL_ c; AF_ := AF_ c;
     WZ := WZ c; WZ_ := WZ_ c; IX := IX c; IY := IY c; R := R c; I := I c;
     SP := SP c; PC := PC c; CTRL := CTRL c; ADDR := v; DATA := DATA c;
     im := im c; imm1 := imm1 c; imm2 := imm2 c; ticks := ticks c;
     context := context c |}.
Definition set_DATA (c : z80) (v : Z) : z80 :=
  {| C := C c; B := B c; E := E c; D := D c; L := L c; H := H c; A := A c;
     F := F c; BC_ := BC_ c; DE_ := DE_ c; HL_ := HL_ c; AF_ := AF_ c;
     WZ := WZ c; WZ_ := WZ_ c; IX := IX c; IY := IY c; R := R c; I := I c;
     SP := SP c; PC := PC c; CTRL := CTRL c; ADDR := ADDR c; DATA := v;
     im := im c; imm1 := imm1 c; imm2 := imm2 c; ticks := ticks c;
     context := context c |}.
Definition set_ticks (c : z80) (v : Z) : z80 :=
  {| C := C c; B := B c; E := E c; D := D c; L := L c; H := H c; A := A c;
     F := F c; BC_ := BC_ c; DE_ := DE_ c; HL_ := HL_ c; AF_ := AF_ c;
     WZ := WZ c; WZ_ := WZ_ c; IX := IX c; IY := IY c; R := R c; I := I c;
     SP := SP c; PC := PC c; CTRL := CTRL c; ADDR := ADDR c;
     DATA := DATA c; im := im c; imm1 := imm1 c; imm2 := imm2 c;
     ticks := v; context := context c |}.
Definition set_context (c : z80) (v : Ctx) : z80 :=
  {| C := C c; B := B c; E := E c; D := D c; L := L c; H := H c; A := A c;
     F := F c; BC_ := BC_ c; DE_ := DE_ c; HL_ := HL_ c; AF_ := AF_ c;
     WZ := WZ c; WZ_ := WZ_ c; IX := IX c; IY := IY c; R := R c; I := I c;
     SP := SP c; PC := PC c; CTRL := CTRL c; ADDR := ADDR c;
     DATA := DATA c; im := im c; imm1 := imm1 c; imm2 := imm2 c;
     ticks := ticks c; context := v |}.

(** [cpu->r8[i]] as an rvalue and as an lvalue.  The decoder only forms
    three-bit indices; outside [0..7] the C code would leave the array,
    which the model renders as reading 0 and storing nothing. *)
Definition r8 (c : z80) (i : Z) : Z :=
  if i =? 0 then C c else if i =? 1 then B c
  else if i =? 2 then E c else if i =? 3 then D c
  else if i =? 4 then L c else if i =? 5 then H c
  else if i =? 6 then A c else if i =? 7 then F c
  else 0.

Definition set_r8 (c : z80) (i v : Z) : z80 :=
  if i =? 0 then set_C c v else if i =? 1 then set_B c v
  else if i =? 2 then set_E c v else if i =? 3 then set_D c v
  else if i =? 4 then set_L c v else if i =? 5 then set_H c v
  else if i =? 6 then set_A c v else if i =? 7 then set_F c v
  else c.

(** [cpu->HL] and [cpu->IR]: the 16-bit members of the unions. *)
Definition HL (c : z80) : Z := Z.lor (Z.shiftl (H c) 8) (L c).
Definition IR (c : z80) : Z := Z.lor (Z.shiftl (I c) 8) (R c).

(** ** ALU functions *)

(** [_z80_add8] *)
Definition _z80_add8 (cpu : z80) (val : Z) : z80 :=
  let res := A cpu + val in
  let cpu := set_F cpu (u8 (_ADD_FLAGS (A cpu) val res)) in
  set_A cpu (u8 res).

(** [_z80_adc8] *)
Definition _z80_adc8 (cpu : z80) (val : Z) : z80 :=
  let res := A cpu + val + Z.land (F cpu) Z80_CF in
  let cpu := set_F cpu (u8 (_ADD_FLAGS (A cpu) val res)) in
  set_A cpu (u8 res).

(** [_z80_sub8] *)
Definition _z80_sub8 (cpu : z80) (val : Z) : z80 :=
  let res := A cpu - val in
  let cpu := set_F cpu (u8 (_SUB_FLAGS (A cpu) val res)) in
  set_A cpu (u8 res).

(** [_z80_sbc8] *)
Definition _z80_sbc8 (cpu : z80) (val : Z) : z80 :=
  let res := A cpu - val - Z.land (F cpu) Z80_CF in
  let cpu := set_F cpu (u8 (_SUB_FLAGS (A cpu) val res)) in
  set_A cpu (u8 res).

(** [_z80_cp8] *)
Definition _z80_cp8 (cpu : z80) (val : Z) : z80 :=
  let res := A cpu - val in
  set_F cpu (u8 (_CP_FLAGS (A cpu) val res)).

(** [_z80_neg8] *)
Definition _z80_neg8 (cpu : z80) : z80 :=
  let val := A cpu in
  let cpu := set_A cpu 0 in
  _z80_sub8 cpu val.

(** ** Control pin functions *)

Definition z80_on (cpu : z80) (pins : Z) : z80 :=
  set_CTRL cpu (u16 (Z.lor (CTRL cpu) pins)).
Definition z80_off (cpu : z80) (pins : Z) : z80 :=
  set_CTRL cpu (u16 (Z.land (CTRL cpu) (Z.lnot pins))).
Definition z80_any (cpu : z80) (pins : Z) : bool :=
  negb (Z.land (CTRL cpu) pins =? 0).
Definition z80_all (cpu : z80) (pins : Z) : bool :=
  Z.land (CTRL cpu) pins =? pins.

(** ** The machine: CPU plus bus log

    The C code has one observable effect besides the struct: it calls
    [cpu->tick(cpu)].  The log is a ghost record of those calls, one
    entry per invocation, holding the pins [(CTRL, ADDR, DATA)] the
    callback was handed. *)
Definition pins : Type := (Z * Z * Z)%type.

Definition pins_of (c : z80) : pins := (CTRL c, ADDR c, DATA c).

Record machine : Type := mk_machine {
  cpu : z80;
  log : list pins
}.

(** A state monad over [machine], for the functions that tick. *)
Definition M (T : Type) : Type := machine -> T * machine.

Definition ret {T} (x : T) : M T := fun s => (x, s).
Definition bind {T U} (m : M T) (k : T -> M U) : M U :=
  fun s => let '(x, s') := m s in k x s'.
Definition get : M z80 := fun s => (cpu s, s).
Definition modify (f : z80 -> z80) : M unit :=
  fun s => (tt, {| cpu := f (cpu s); log := log s |}).

Definition exec {T} (m : M T) (s : machine) : machine := snd (m s).
Definition eval {T} (m : M T) (s : machine) : T := fst (m s).

End State.

Arguments z80 : clear implicits.
Arguments machine : clear implicits.
Arguments M : clear implicits.

Declare Scope z80_scope.
Delimit Scope z80_scope with z80.
Notation "x <- m ;; k" := (bind m (fun x => k))
  (at level 61, m at next level, right associativity) : z80_scope.
Notation "m ;; k" := (bind m (fun _ => k))
  (at level 61, right associativity) : z80_scope.
Local Open Scope z80_scope.

(** [cpu->ticks++] on the [uint32_t] counter. *)
Definition bump (t : Z) : Z := u32 (t + 1).

Section Core.

Context {Ctx : Type}.

(** The [tick] member: a [void] function of the [z80*] itself, so the
    callback is handed the whole struct and may update it in place. *)
Variable tick : z80 Ctx -> z80 Ctx.

Local Abbreviation M := (M Ctx).

(** [#define _ON(m) { cpu->CTRL |= (m); }] *)
Definition _ON (m : Z) : M unit :=
  modify (fun c => set_CTRL c (u16 (Z.lor (CTRL c) m))).

(** [#define _OFF(m) { cpu->CTRL &= ~(m); }] *)
Definition _OFF (m : Z) : M unit :=
  modify (fun c => set_CTRL c (u16 (Z.land (CTRL c) (Z.lnot m)))).

(** [#define _TICK() { cpu->tick(cpu); cpu->ticks++; }] *)
Definition _TICK : M unit :=
  fun s =>
    let c := tick (cpu s) in
    (tt, {| cpu := set_ticks c (bump (ticks c));
            log := log s ++ [pins_of (cpu s)] |}).

(** [_z80_fetch]: the M1 machine cycle, four T-states. *)
Definition _z80_fetch : M unit :=
  (* T1 *)
  _ON Z80_M1 ;;
  modify (fun c => set_PC (set_ADDR c (PC c)) (u16 (PC c + 1))) ;;
  _TICK ;;
  (* T2 *)
  _ON (Z.lor Z80_MREQ Z80_RD) ;;
  _TICK ;;
  modify (fun c =>
    set_R c (u8 (Z.lor (Z.land (R c) 0x80) (Z.land (R c + 1) 0x7F)))) ;;
  (* T3 *)
  _OFF (Z.lor (Z.lor Z80_M1 Z80_MREQ) Z80_RD) ;;
  _ON Z80_RFSH ;;
  modify (fun c => set_ADDR c (IR c)) ;;
  _TICK ;;
  (* T4 *)
  _ON Z80_MREQ ;;
  _TICK ;;
  _OFF (Z.lor Z80_RFSH Z80_MREQ).

(** [_z80_read]: a memory read machine cycle. *)
Definition _z80_read (addr : Z) : M unit :=
  modify (fun c => set_ADDR c (u16 addr)) ;;
  _TICK ;;
  _ON (Z.lor Z80_MREQ Z80_RD) ;;
  _TICK ;;
  _OFF (Z.lor Z80_MREQ Z80_RD) ;;
  _TICK.

(** [_z80_write]: a memory write machine cycle. *)
Definition _z80_write (addr data : Z) : M unit :=
  modify (fun c => set_ADDR c (u16 addr)) ;;
  _TICK ;;
  _ON (Z.lor Z80_MREQ Z80_WR) ;;
  modify (fun c => set_DATA c (u8 data)) ;;
  _TICK ;;
  _OFF (Z.lor Z80_MREQ Z80_WR) ;;
  _TICK.

Definition _WRITE (a r : Z) : M unit := _z80_write a r.
Definition _READ (a : Z) : M unit := _z80_read a.

(** [_z80_halt]: an empty body in the source. *)
Definition _z80_halt : M unit := ret tt.

(** [_z80_op]: decode and execute the opcode in [DATA]. *)
Definition _z80_op : M unit :=
  c <- get ;;
  let op := DATA c in
  let x := u8 (Z.shiftr op 6) in
  let y := u8 (Z.land (Z.shiftr op 3) 7) in
  let z := u8 (Z.land op 7) in
  let p := u8 (Z.shiftr y 1) in
  let q := u8 (Z.land y 1) in
  if x =? 1 then
    (* block 1: 8-bit loads and HALT *)
    if y =? 6 then
      if z =? 6 then
        _z80_halt
      else
        _WRITE (HL c) (r8 c (Z.lxor z 1))
    else if z =? 6 then
      _READ (HL c) ;;
      modify (fun c => set_r8 c (Z.lxor y 1) (DATA c))
    else
      modify (fun c => set_r8 c (Z.lxor y 1) (r8 c (Z.lxor z 1)))
  else if x =? 2 then
    (* block 2: 8-bit ALU instructions *)
    ret tt
  else if x =? 0 then
    (* block 0: misc instructions *)
    if z =? 0 then
      (if y =? 0 then ret tt          (* NOP *)
       else if y =? 1 then ret tt     (* EX AF,AF' *)
       else if y =? 2 then ret tt     (* DJNZ *)
       else if y =? 3 then ret tt     (* JR d *)
       else ret tt)                   (* JR cc,d *)
    else if z =? 1 then
      (if q =? 0 then ret tt else ret tt)
    else if z =? 2 then ret tt
    else if z =? 3 then ret tt
    else if z =? 4 then ret tt
    else if z =? 5 then ret tt
    else if z =? 6 then
      (if y =? 6 then
         ret tt
       else
         (* LD r,n *)
         c <- get ;;
         modify (fun c => set_PC c (u16 (PC c + 1))) ;;
         _READ (PC c) ;;
         modify (fun c => set_r8 c (Z.lxor y 1) (DATA c)))
    else if z =? 7 then ret tt
    else ret tt
  else if x =? 3 then
    (* block 3: misc and extended instructions *)
    ret tt
  else ret tt.

(** [z80_step] *)
Definition z80_step : M Z :=
  modify (fun c => set_ticks c 0) ;;
  _z80_fetch ;;
  _z80_op ;;
  c <- get ;;
  ret (ticks c).

(** [z80_run]: the body is [// FIXME] followed by [return 0;]. *)
Definition z80_run (t : Z) : M Z := ret 0.

(** The first two statements of [z80_step], and the opcode they leave in
    [DATA] for [_z80_op]: the byte the callback delivered during the M1
    cycle. *)
Definition step_fetch : M unit :=
  modify (fun c => set_ticks c 0) ;;
  _z80_fetch.

Definition opcode_of (s : machine Ctx) : Z := DATA (cpu (exec step_fetch s)).

(** ** The pin protocol, seen from the core

    The callback is given the struct but is meant to exchange pins: it
    may drive [CTRL], [ADDR] and [DATA] and update what hangs on
    [context], and it leaves the registers and the cycle counter to the
    core. *)
Definition drive (c : z80 Ctx) (ctrl addr data : Z) (ctx : Ctx) : z80 Ctx :=
  set_context (set_DATA (set_ADDR (set_CTRL c ctrl) addr) data) ctx.

Definition pins_only : Prop :=
  forall c, tick c = drive c (CTRL (tick c)) (ADDR (tick c)) (DATA (tick c))
                           (context (tick c)).

(** The part of the protocol that cycle counting depends on. *)
Definition keeps_ticks : Prop := forall c, ticks (tick c) = ticks c.

(** ** Bus accounting

    [emits n m]: running [m] invokes the callback exactly [n] times.
    [counted b m]: running [m] invokes it at most [b] times and moves
    the cycle counter by one [bump] per invocation. *)
Definition emits {T} (n : nat) (m : M T) : Prop :=
  forall s, exists new,
    length new = n /\ log (exec m s) = log s ++ new.

Definition counted {T} (b : nat) (m : M T) : Prop :=
  forall s, exists new,
    (length new <= b)%nat /\
    log (exec m s) = log s ++ new /\
    ticks (cpu (exec m s)) = Nat.iter (length new) bump (ticks (cpu s)).

End Core.

(** The registers a NOP has no business with: everything but [PC], [R],
    the pins and the cycle counter. *)
Definition nop_frame {Ctx : Type} (c : z80 Ctx) : list Z * (bool * bool) :=
  ([A c; F c; B c; C c; D c; E c; H c; L c;
    BC_ c; DE_ c; HL_ c; AF_ c; IX c; IY c; I c; SP c; WZ c; WZ_ c; im c],
   (imm1 c, imm2 c)).

(** [z80_init]: [memset] to zero; the callback and the context are the
    two members it then fills in. *)
Definition z80_init {Ctx : Type} (tick_context : Ctx) : z80 Ctx :=
  {| C := 0; B := 0; E := 0; D := 0; L := 0; H := 0; A := 0; F := 0;
     BC_ := 0; DE_ := 0; HL_ := 0; AF_ := 0; WZ := 0; WZ_ := 0;
     IX := 0; IY := 0; R := 0; I := 0; SP := 0; PC := 0;
     CTRL := 0; ADDR := 0; DATA := 0;
     im := 0; imm1 := false; imm2 := false; ticks := 0;
     context := tick_context |}.

(** ** A host for concrete runs

    The context is a flat 64K memory.  The callback answers a memory
    read (MREQ and RD active) by driving [DATA] with the addressed byte
    and a memory write (MREQ and WR active) by storing [DATA]; it leaves
    every other member of the struct alone. *)
Definition ram_tick (c : z80 (Z -> Z)) : z80 (Z -> Z) :=
  if z80_all c (Z.lor Z80_MREQ Z80_RD) then
    set_DATA c (u8 (context c (ADDR c)))
  else if z80_all c (Z.lor Z80_MREQ Z80_WR) then
    set_context c (fun a => if a =? ADDR c then DATA c else context c a)
  else c.

(** A memory holding the same byte everywhere. *)
Definition filled (b : Z) : Z -> Z := fun _ => b.

(** Power-on machine over a given memory, nothing logged yet. *)
Definition boot (mem : Z -> Z) : machine (Z -> Z) :=
  {| cpu := z80_init mem; log := [] |}.

(** A callback that breaks the pin protocol: it clears the core's own
    cycle counter on every call. *)
Definition rogue_tick (c : z80 unit) : z80 unit := set_ticks c 0.

(** Power-on machine with the refresh register at the top of its
    seven-bit range, over a memory of NOPs. *)
Definition boot_r7f : machine (Z -> Z) :=
  {| cpu := set_R (z80_init (filled 0x00)) 0x7F; log := [] |}.

(** Power-on machine with [C = 0x55] over a memory of [LD B,C]. *)
Definition boot_ld_b_c : machine (Z -> Z) :=
  {| cpu := set_C (z80_init (filled 0x41)) 0x55; log := [] |}.

(** ** What the arithmetic flags mean

    The flag names of [z80_flags] read as arithmetic on bytes: the value
    of a byte taken as signed, a sum or difference leaving the signed
    range, a carry out of (or a borrow into) the low nibble. *)
Definition s8 (x : Z) : Z := if x <? 128 then x else x - 256.

Definition signed_overflow (x : Z) : bool :=
  negb ((-128 <=? x) && (x <=? 127)).

Definition half_carry (a v c : Z) : bool := 15 <? a mod 16 + v mod 16 + c.

Definition half_borrow (a v c : Z) : bool := a mod 16 <? v mod 16 + c.

(** Every byte value, for exhaustive checks. *)
Definition bytes : list Z := map Z.of_nat (seq 0 256).

(** The H and V flags of an addition and of a subtraction with carry-in
    [c], against their arithmetic meaning. *)
Definition add_hv_ok (c a v : Z) : bool :=
  let f := u8 (_ADD_FLAGS a v (a + v + c)) in
  Bool.eqb (flag_set f Z80_HF) (half_carry a v c) &&
  Bool.eqb (flag_set f Z80_VF) (signed_overflow (s8 a + s8 v + c)).

Definition sub_hv_ok (c a v : Z) : bool :=
  let f := u8 (_SUB_FLAGS a v (a - v - c)) in
  Bool.eqb (flag_set f Z80_HF) (half_borrow a v c) &&
  Bool.eqb (flag_set f Z80_VF) (signed_overflow (s8 a - s8 v - c)) &&
  Bool.eqb (flag_set f Z80_CF) (a <? v + c).

(** Power-on CPUs with a value in the accumulator, for concrete runs of
    the ALU. *)
Definition acc_7f : z80 unit := set_A (z80_init tt) 0x7F.
Definition acc_10 : z80 unit := set_A (z80_init tt) 0x10.
Definition acc_80 : z80 unit := set_A (z80_init tt) 0x80.

(** ** The decoder as a table

    [_z80_op] again, split in two: which of the six behaviours an opcode
    selects (with the [r8] indices it computes), and what each behaviour
    does.  [op_decode] below shows the two halves put together are
    [_z80_op]. *)
Inductive z80_instr : Type :=
| I_HALT
| I_LD_HL_r (src : Z)
| I_LD_r_HL (dst : Z)
| I_LD_r_r (dst src : Z)
| I_LD_r_n (dst : Z)
| I_NONE.

Definition decode (op : Z) : z80_instr :=
  let x := u8 (Z.shiftr op 6) in
  let y := u8 (Z.land (Z.shiftr op 3) 7) in
  let z := u8 (Z.land op 7) in
  if x =? 1 then
    if y =? 6 then
      if z =? 6 then I_HALT else I_LD_HL_r (Z.lxor z 1)
    else if z =? 6 then I_LD_r_HL (Z.lxor y 1)
    else I_LD_r_r (Z.lxor y 1) (Z.lxor z 1)
  else if x =? 0 then
    if z =? 6 then
      if y =? 6 then I_NONE else I_LD_r_n (Z.lxor y 1)
    else I_NONE
  else I_NONE.

Definition exec_instr {Ctx : Type} (tick : z80 Ctx -> z80 Ctx)
    (i : z80_instr) : M Ctx unit :=
  match i with
  | I_HALT => _z80_halt
  | I_LD_HL_r src => c <- get ;; _WRITE tick (HL c) (r8 c src)
  | I_LD_r_HL dst =>
      c <- get ;;
      _READ tick (HL c) ;;
      modify (fun c => set_r8 c dst (DATA c))
  | I_LD_r_r dst src => modify (fun c => set_r8 c dst (r8 c src))
  | I_LD_r_n dst =>
      c <- get ;;
      modify (fun c => set_PC c (u16 (PC c + 1))) ;;
      _READ tick (PC c) ;;
      modify (fun c => set_r8 c dst (DATA c))
  | I_NONE => ret tt
  end.

(** Callback invocations of each behaviour. *)
Definition instr_cycles (i : z80_instr) : nat :=
  match i with
  | I_LD_HL_r _ | I_LD_r_HL _ | I_LD_r_n _ => 3%nat
  | _ => 0%nat
  end.

(** The opcodes of the loads that go to memory, by value: [LD r,(HL)]
    and [LD (HL),r] in [0x40..0x7F] (not [0x76]), [LD r,n] in
    [0x00..0x3F] (not [0x36]). *)
Definition bus_opcode (d : Z) : bool :=
  ((64 <=? d) && (d <? 128) && negb (d =? 0x76) &&
   ((d mod 8 =? 6) || (d / 8 =? 14)))
  || ((0 <=? d) && (d <? 64) && (d mod 8 =? 6) && negb (d =? 0x36)).

(** The opcodes with a load behind them at all. *)
Definition load_opcode (d : Z) : bool :=
  ((64 <=? d) && (d <? 128) && negb (d =? 0x76)) || bus_opcode d.

Definition instr_is_none (i : z80_instr) : bool :=
  match i with I_NONE | I_HALT => true | _ => false end.

(** The Z80's register codes, as the opcode carries them: 0..5 are
    [B, C, D, E, H, L], 7 is [A]; 6 stands for memory at [HL]. *)
Definition reg_code {Ctx : Type} (c : z80 Ctx) (k : Z) : option Z :=
  if k =? 0 then Some (B c) else if k =? 1 then Some (C c)
  else if k =? 2 then Some (D c) else if k =? 3 then Some (E c)
  else if k =? 4 then Some (H c) else if k =? 5 then Some (L c)
  else if k =? 7 then Some (A c) else None.

(** The members no implemented opcode has any business with. *)
Definition step_frame {Ctx : Type} (c : z80 Ctx) : list Z * (bool * bool) :=
  ([F c; BC_ c; DE_ c; HL_ c; AF_ c; IX c; IY c; I c; SP c; WZ c; WZ_ c;
    im c],
   (imm1 c, imm2 c)).

(** The three components of a logged pin state. *)
Definition pin_ctrl (p : pins) : Z := fst (fst p).
Definition pin_addr (p : pins) : Z := snd (fst p).
Definition pin_data (p : pins) : Z := snd p.

(** What [bus_opcode] and [load_opcode] say about an opcode, against
    what [decode] makes of it. *)
Definition decode_class_ok (d : Z) : bool :=
  match decode d with
  | I_HALT => (d =? 0x76) && negb (load_opcode d)
  | I_NONE => negb (load_opcode d) && negb (d =? 0x76)
  | I_LD_r_r dst src =>
      load_opcode d && negb (bus_opcode d) &&
      (dst =? Z.lxor (d / 8 mod 8) 1) && (src =? Z.lxor (d mod 8) 1)
  | I_LD_r_HL dst =>
      bus_opcode d && (64 <=? d) && (d mod 8 =? 6) &&
      (dst =? Z.lxor (d / 8 mod 8) 1)
  | I_LD_HL_r src =>
      bus_opcode d && (64 <=? d) && (d / 8 =? 14) &&
      (src =? Z.lxor (d mod 8) 1)
  | I_LD_r_n dst =>
      bus_opcode d && (d <? 64) && (dst =? Z.lxor (d / 8 mod 8) 1)
  end.

End Z80.

(** * Bit-level toolbox *)

Lemma u8_land x : u8 x = Z.land x 0xFF.
Proof. unfold u8. change 0xFF with (Z.ones 8). now rewrite Z.land_ones. Qed.

Lemma u16_land x : u16 x = Z.land x 0xFFFF.
Proof. unfold u16. change 0xFFFF with (Z.ones 16). now rewrite Z.land_ones. Qed.

Lemma u8_range x : is_u8 (u8 x).
Proof. unfold is_u8, u8. apply Z.mod_pos_bound. lia. Qed.

Lemma u8_small x : is_u8 x -> u8 x = x.
Proof. intros Hx. apply Z.mod_small. exact Hx. Qed.

Lemma u16_small x : is_u16 x -> u16 x = x.
Proof. intros Hx. apply Z.mod_small. exact Hx. Qed.

(** Masking twice is masking with the intersection of the masks; with
    closed masks the intersection then computes. *)
Lemma land_land x m k : Z.land (Z.land x m) k = Z.land x (Z.land m k).
Proof. now rewrite Z.land_assoc. Qed.

(** A mask distributes over the [|] of the pieces of a packed word. *)
Lemma land_lor x y m : Z.land (Z.lor x y) m = Z.lor (Z.land x m) (Z.land y m).
Proof. apply Z.land_lor_distr_l. Qed.

(** A value that fits a mask of [w] ones is left alone by it. *)
Lemma land_ones_small w x :
  0 <= w -> 0 <= x < 2 ^ w -> Z.land x (Z.ones w) = x.
Proof.
  intros Hw Hx. rewrite Z.land_ones by exact Hw.
  apply Z.mod_small. exact Hx.
Qed.

(** The low bit of a [|] expression, and of a masked piece. *)
Lemma bit0_lor x y : Z.testbit (Z.lor x y) 0 = Z.testbit x 0 || Z.testbit y 0.
Proof. apply Z.lor_spec. Qed.

Lemma bit0_land x y : Z.testbit (Z.land x y) 0 = Z.testbit x 0 && Z.testbit y 0.
Proof. apply Z.land_spec. Qed.

(** [f & 1] as a number is bit 0 of [f]. *)
Lemma land_1_bit x : Z.land x 1 = Z.b2z (Z.testbit x 0).
Proof.
  change 1 with (Z.ones 1). rewrite Z.land_ones by lia.
  change (2 ^ 1) with 2. rewrite Z.bit0_mod. reflexivity.
Qed.

Lemma flag_set_bit0 f : flag_set f 1 = Z.testbit f 0.
Proof.
  unfold flag_set. rewrite land_1_bit.
  destruct (Z.testbit f 0); reflexivity.
Qed.

(** For a sum of two bytes and a carry, bit 8 says the sum left the
    byte range. *)
Lemma bit8_overflow x : 0 <= x < 512 -> Z.testbit x 8 = (255 <? x).
Proof.
  intros Hx. destruct (Z.ltb_spec 255 x) as [Hgt | Hle].
  - apply Z.testbit_true; [lia |]. change (2 ^ 8) with 256.
    replace (x / 256) with 1; [reflexivity |].
    apply Z.div_unique with (r := x - 256); lia.
  - rewrite <- (Z.mod_small x (2 ^ 8)) by lia.
    apply Z.mod_pow2_bits_high. lia.
Qed.

(** A byte shifted into the high half and a byte [|]-ed below it do not
    overlap, so the [|] is their sum. *)
Lemma lor_shiftl_byte hi lo :
  is_u8 lo -> Z.lor (Z.shiftl hi 8) lo = hi * 256 + lo.
Proof.
  intros Hlo.
  assert (Hdisj : Z.land (Z.shiftl hi 8) lo = 0).
  { apply Z.bits_inj'. intros n Hn.
    rewrite Z.land_spec, Z.bits_0, Z.shiftl_spec by exact Hn.
    destruct (Z.lt_ge_cases n 8) as [Hlt | Hge].
    - rewrite Z.testbit_neg_r by lia. reflexivity.
    - rewrite <- (Z.mod_small lo (2 ^ 8)) by exact Hlo.
      rewrite (Z.mod_pow2_bits_high lo 8 n) by lia.
      apply andb_false_r. }
  rewrite <- Z.lxor_lor by exact Hdisj.
  rewrite <- Z.add_nocarry_lxor by exact Hdisj.
  rewrite Z.shiftl_mul_pow2 by lia. reflexivity.
Qed.

(** Two pieces cut out by disjoint masks add up under [|]. *)
Lemma lor_disjoint_masks a b m k :
  Z.land m k = 0 -> Z.lor (Z.land a m) (Z.land b k) = Z.land a m + Z.land b k.
Proof.
  intros Hmk.
  assert (Hdisj : Z.land (Z.land a m) (Z.land b k) = 0).
  { apply Z.bits_inj'. intros n Hn.
    assert (Hbit : Z.testbit m n && Z.testbit k n = false)
      by (rewrite <- Z.land_spec, Hmk; apply Z.bits_0).
    rewrite !Z.land_spec, Z.bits_0.
    destruct (Z.testbit m n), (Z.testbit k n); try discriminate Hbit;
      rewrite ?andb_false_r; reflexivity. }
  rewrite <- Z.lxor_lor by exact Hdisj.
  symmetry. apply Z.add_nocarry_lxor. exact Hdisj.
Qed.

(** The refresh update [(r&0x80)|((r+1)&0x7F)] on a byte: plus one,
    except that the low seven bits wrap on their own. *)
Lemma refresh_update_cases r :
  is_u8 r ->
  (Z.land r 0x7F <> 0x7F ->
   Z.lor (Z.land r 0x80) (Z.land (r + 1) 0x7F) = r + 1) /\
  (Z.land r 0x7F = 0x7F ->
   Z.lor (Z.land r 0x80) (Z.land (r + 1) 0x7F) = r - 0x7F).
Proof.
  intros Hr. unfold is_u8 in Hr.
  rewrite lor_disjoint_masks by reflexivity.
  assert (Hsplit : r = Z.land r 0x80 + Z.land r 0x7F).
  { rewrite <- lor_disjoint_masks by reflexivity.
    rewrite <- Z.land_lor_distr_r. change (Z.lor 0x80 0x7F) with (Z.ones 8).
    symmetry. apply land_ones_small; lia. }
  change 0x7F with (Z.ones 7) in *.
  rewrite !Z.land_ones in * by lia.
  change (2 ^ 7) with 128 in *. change (Z.ones 7) with 127 in *.
  split; intros Hl.
  - rewrite Hsplit at 3.
    assert (E : (r + 1) mod 128 = r mod 128 + 1).
    { pose proof (Z.mod_pos_bound r 128 ltac:(lia)).
      rewrite Z.add_mod by lia. rewrite (Z.mod_small 1) by lia.
      apply Z.mod_small. lia. }
    lia.
  - rewrite Hsplit at 3.
    assert (E : (r + 1) mod 128 = 0).
    { rewrite Z.add_mod by lia. rewrite Hl. reflexivity. }
    lia.
Qed.

(** A one-bit mask tests that bit. *)
Lemma flag_bit x n : 0 <= n -> flag_set x (Z.shiftl 1 n) = Z.testbit x n.
Proof.
  intros Hn. unfold flag_set. rewrite Z.shiftl_1_l.
  destruct (Z.testbit x n) eqn:E.
  - destruct (Z.eqb_spec (Z.land x (2 ^ n)) 0) as [H0 | H0]; [| reflexivity].
    assert (Hb : Z.testbit (Z.land x (2 ^ n)) n = true)
      by (rewrite Z.land_spec, E, Z.pow2_bits_true by exact Hn; reflexivity).
    rewrite H0, Z.bits_0 in Hb. discriminate Hb.
  - replace (Z.land x (2 ^ n)) with 0; [reflexivity |].
    symmetry. apply Z.bits_inj'. intros m Hm.
    rewrite Z.land_spec, Z.bits_0.
    destruct (Z.eq_dec n m) as [<- | Hne].
    + rewrite E. reflexivity.
    + rewrite Z.pow2_bits_false by exact Hne. apply andb_false_r.
Qed.

(** The low eight bits survive a byte store. *)
Lemma u8_testbit x n : 0 <= n < 8 -> Z.testbit (u8 x) n = Z.testbit x n.
Proof. intros Hn. unfold u8. apply Z.mod_pow2_bits_low. lia. Qed.

(** Bit 8 of a difference of two bytes (and a borrow) is its sign. *)
Lemma bit8_borrow x : -256 <= x < 256 -> Z.testbit x 8 = (x <? 0).
Proof.
  intros Hx. destruct (Z.ltb_spec x 0) as [Hneg | Hpos].
  - replace x with (Z.lnot (- x - 1)) by (unfold Z.lnot; lia).
    rewrite Z.lnot_spec by lia.
    rewrite <- (Z.mod_small (- x - 1) (2 ^ 8)) by lia.
    rewrite Z.mod_pow2_bits_high by lia. reflexivity.
  - rewrite <- (Z.mod_small x (2 ^ 8)) by lia.
    apply Z.mod_pow2_bits_high. lia.
Qed.

(** Checking a property of two bytes on all 65536 pairs proves it. *)
Lemma bytes_complete x : is_u8 x -> In x Z80.bytes.
Proof.
  unfold is_u8. change (2 ^ 8) with 256. intros Hx.
  unfold Z80.bytes. apply in_map_iff. exists (Z.to_nat x).
  split; [lia |]. apply in_seq. lia.
Qed.

Lemma forall_bytes2 (P : Z -> Z -> bool) :
  forallb (fun a => forallb (P a) Z80.bytes) Z80.bytes = true ->
  forall a v, is_u8 a -> is_u8 v -> P a v = true.
Proof.
  intros Hall a v Ha Hv. rewrite forallb_forall in Hall.
  specialize (Hall a (bytes_complete a Ha)).
  rewrite forallb_forall in Hall. apply Hall, bytes_complete, Hv.
Qed.

Lemma forall_bytes1 (P : Z -> bool) :
  forallb P Z80.bytes = true -> forall d, is_u8 d -> P d = true.
Proof.
  intros Hall d Hd. rewrite forallb_forall in Hall.
  apply Hall, bytes_complete, Hd.
Qed.

(** Raising or dropping pins in the 16-bit control word. *)
Lemma u16_lor_on x m : is_u16 m -> Z.land (u16 (Z.lor x m)) m = m.
Proof.
  intros Hm. rewrite u16_land, land_land.
  replace (Z.land 0xFFFF m) with m
    by (rewrite Z.land_comm; symmetry; apply (land_ones_small 16); [lia | exact Hm]).
  rewrite land_lor, Z.land_diag.
  apply Z.bits_inj'. intros n Hn.
  rewrite Z.lor_spec, Z.land_spec.
  destruct (Z.testbit x n), (Z.testbit m n); reflexivity.
Qed.

Lemma u16_land_off x m : Z.land (u16 (Z.land x (Z.lnot m))) m = 0.
Proof.
  apply Z.bits_inj'. intros n Hn.
  rewrite u16_land, !Z.land_spec, Z.lnot_spec, Z.bits_0 by exact Hn.
  destruct (Z.testbit x n), (Z.testbit m n), (Z.testbit 0xFFFF n);
    reflexivity.
Qed.

(** Pins switched off stay off when other pins are switched on. *)
Lemma u16_off_on x m r :
  Z.land r m = 0 ->
  Z.land (u16 (Z.lor (u16 (Z.land x (Z.lnot m))) r)) m = 0.
Proof.
  intros Hr. apply Z.bits_inj'. intros n Hn.
  assert (Hb : Z.testbit r n && Z.testbit m n = false)
    by (rewrite <- Z.land_spec, Hr; apply Z.bits_0).
  rewrite !u16_land.
  repeat first [ rewrite Z.land_spec | rewrite Z.lor_spec
               | rewrite Z.lnot_spec by exact Hn ].
  rewrite Z.bits_0.
  destruct (Z.testbit x n), (Z.testbit m n), (Z.testbit r n),
    (Z.testbit 0xFFFF n); try reflexivity; discriminate Hb.
Qed.

(** Switching pins on or off leaves the pins outside the mask alone. *)
Lemma u16_lor_other x m k :
  is_u16 k -> Z.land m k = 0 -> Z.land (u16 (Z.lor x m)) k = Z.land x k.
Proof.
  intros Hk Hm.
  replace k with (Z.land k 0xFFFF)
    by (apply (land_ones_small 16); [lia | exact Hk]).
  apply Z.bits_inj'. intros n Hn.
  assert (Hb : Z.testbit m n && Z.testbit k n = false)
    by (rewrite <- Z.land_spec, Hm; apply Z.bits_0).
  rewrite u16_land.
  repeat first [ rewrite Z.land_spec | rewrite Z.lor_spec ].
  destruct (Z.testbit x n), (Z.testbit m n), (Z.testbit k n),
    (Z.testbit 0xFFFF n); try reflexivity; discriminate Hb.
Qed.

Lemma u16_land_other x m k :
  is_u16 k -> Z.land m k = 0 ->
  Z.land (u16 (Z.land x (Z.lnot m))) k = Z.land x k.
Proof.
  intros Hk Hm.
  replace k with (Z.land k 0xFFFF)
    by (apply (land_ones_small 16); [lia | exact Hk]).
  apply Z.bits_inj'. intros n Hn.
  assert (Hb : Z.testbit m n && Z.testbit k n = false)
    by (rewrite <- Z.land_spec, Hm; apply Z.bits_0).
  rewrite u16_land.
  repeat first [ rewrite Z.land_spec | rewrite Z.lnot_spec by exact Hn ].
  destruct (Z.testbit x n), (Z.testbit m n), (Z.testbit k n),
    (Z.testbit 0xFFFF n); try reflexivity; discriminate Hb.
Qed.

(** * Properties of the 6502 core *)

Module M6502_Spec.
Import M6502.

(** ** Pin packing *)

Section Packing.

Variables ctrl a d : Z.

(** The three fields of a packed word, one mask at a time. *)
Lemma make_pins_low :
  Z.land (M6502_MAKE_PINS ctrl a d) 0xFFFF
  = Z.lor (Z.land ctrl 0xFFFF) (Z.land a 0xFFFF).
Proof.
  unfold M6502_MAKE_PINS. rewrite !land_lor, !land_land.
  change (Z.land 0xFF0000 0xFFFF) with 0.
  change (Z.land 0xFFFF 0xFFFF) with 0xFFFF.
  rewrite Z.land_0_r, Z.lor_0_r. reflexivity.
Qed.

Lemma make_pins_mid :
  Z.land (M6502_MAKE_PINS ctrl a d) 0xFF0000
  = Z.lor (Z.land ctrl 0xFF0000) (Z.land (Z.shiftl d 16) 0xFF0000).
Proof.
  unfold M6502_MAKE_PINS. rewrite !land_lor, !land_land.
  change (Z.land 0xFFFF 0xFF0000) with 0.
  change (Z.land 0xFF0000 0xFF0000) with 0xFF0000.
  rewrite Z.land_0_r, Z.lor_0_r. reflexivity.
Qed.

Lemma make_pins_high :
  Z.land (M6502_MAKE_PINS ctrl a d) (Z.lnot 0xFFFFFF)
  = Z.land ctrl (Z.lnot 0xFFFFFF).
Proof.
  unfold M6502_MAKE_PINS. rewrite !land_lor, !land_land.
  change (Z.land 0xFFFF (Z.lnot 0xFFFFFF)) with 0.
  change (Z.land 0xFF0000 (Z.lnot 0xFFFFFF)) with 0.
  rewrite !Z.land_0_r, !Z.lor_0_r. reflexivity.
Qed.

Lemma shifted_byte : is_u8 d -> Z.shiftr (Z.land (Z.shiftl d 16) 0xFF0000) 16 = d.
Proof.
  intros Hd. rewrite Z.shiftr_land.
  rewrite Z.shiftr_shiftl_l by lia.
  change (16 - 16) with 0. rewrite Z.shiftl_0_r.
  change (Z.shiftr 0xFF0000 16) with (Z.ones 8).
  apply land_ones_small; [lia | exact Hd].
Qed.

End Packing.

(** A word made of control pins only has nothing below bit 24. *)
Lemma ctrl_set_clear ctrl m :
  ctrl_set ctrl -> Z.land M6502_CTRL_PINS m = 0 -> Z.land ctrl m = 0.
Proof.
  unfold ctrl_set. intros Hc Hm.
  rewrite <- Hc, land_land, Hm. apply Z.land_0_r.
Qed.

(** C6. For every set [ctrl] of control pins (RW, IRQ, NMI), every
    16-bit address [a] and every 8-bit data value [d], the address and
    the data extracted from [M6502_MAKE_PINS(ctrl, a, d)] are [a] and
    [d], and the control pins of the packed word are exactly [ctrl]. *)
Theorem make_pins_roundtrip ctrl a d :
  ctrl_set ctrl -> is_u16 a -> is_u8 d ->
  M6502_GET_ADDR (M6502_MAKE_PINS ctrl a d) = a /\
  M6502_GET_DATA (M6502_MAKE_PINS ctrl a d) = d /\
  Z.land (M6502_MAKE_PINS ctrl a d) M6502_CTRL_PINS = ctrl /\
  Z.land (M6502_MAKE_PINS ctrl a d) (Z.lnot 0xFFFFFF) = ctrl.
Proof.
  intros Hc Ha Hd.
  assert (Hlow : Z.land ctrl 0xFFFF = 0) by (apply ctrl_set_clear; auto).
  assert (Hmid : Z.land ctrl 0xFF0000 = 0) by (apply ctrl_set_clear; auto).
  assert (Ea : Z.land a 0xFFFF = a)
    by (apply (land_ones_small 16); [lia | exact Ha]).
  repeat split.
  - unfold M6502_GET_ADDR. rewrite make_pins_low, Hlow, Ea, Z.lor_0_l.
    apply u16_small, Ha.
  - unfold M6502_GET_DATA. rewrite make_pins_mid, Hmid, Z.lor_0_l.
    rewrite shifted_byte by exact Hd. apply u8_small, Hd.
  - unfold M6502_MAKE_PINS. rewrite !land_lor, !land_land.
    change (Z.land 0xFF0000 M6502_CTRL_PINS) with 0.
    change (Z.land 0xFFFF M6502_CTRL_PINS) with 0.
    rewrite !Z.land_0_r, !Z.lor_0_r. exact Hc.
  - rewrite make_pins_high. unfold ctrl_set in Hc.
    rewrite <- Hc at 1. rewrite land_land.
    change (Z.land M6502_CTRL_PINS (Z.lnot 0xFFFFFF)) with M6502_CTRL_PINS.
    exact Hc.
Qed.

(** The read of the reset vector's low byte, packed and unpacked. *)
Lemma make_pins_roundtrip_witness :
  ctrl_set M6502_RW /\ is_u16 0xFFFC /\ is_u8 0x42 /\
  M6502_GET_ADDR (M6502_MAKE_PINS M6502_RW 0xFFFC 0x42) = 0xFFFC /\
  M6502_GET_DATA (M6502_MAKE_PINS M6502_RW 0xFFFC 0x42) = 0x42 /\
  Z.land (M6502_MAKE_PINS M6502_RW 0xFFFC 0x42) M6502_CTRL_PINS = M6502_RW /\
  Z.land (M6502_MAKE_PINS M6502_RW 0xFFFC 0x42) (Z.lnot 0xFFFFFF) = M6502_RW.
Proof.
  assert (Hc : ctrl_set M6502_RW) by reflexivity.
  assert (Ha : is_u16 0xFFFC) by (unfold is_u16; lia).
  assert (Hd : is_u8 0x42) by (unfold is_u8; lia).
  repeat (split; [assumption |]).
  exact (make_pins_roundtrip M6502_RW 0xFFFC 0x42 Hc Ha Hd).
Defined.

(** ** Reset *)

Section Reset.

Variable Host : Type.
Variable tick : Host -> Z -> Host * Z.

(** The two pin words [m6502_reset] hands to the callback are reads
    (RW high) of the reset vector's two bytes. *)
Lemma reset_bus_reads :
  M6502_GET_ADDR (M6502_MAKE_PINS M6502_RW 0xFFFC 0x00) = 0xFFFC /\
  M6502_GET_ADDR (M6502_MAKE_PINS M6502_RW 0xFFFD 0x00) = 0xFFFD /\
  flag_set (M6502_MAKE_PINS M6502_RW 0xFFFC 0x00) M6502_RW = true /\
  flag_set (M6502_MAKE_PINS M6502_RW 0xFFFD 0x00) M6502_RW = true.
Proof. repeat split; reflexivity. Qed.

(** C2. For every tick callback (and every world behind it), after
    [m6502_reset] the stack pointer is [0xFD], the flags are
    [M6502_IF|M6502_XF], and the program counter is [(h<<8)|l], that is
    [256*h + l], where [l] is the data byte of the word the callback
    returned for the read of [0xFFFC] and [h] the data byte of the word
    it returned, called next, for the read of [0xFFFD]. *)
Theorem reset_loads_vector (c : m6502_t) (w : Host) :
  let r1 := tick w (M6502_MAKE_PINS M6502_RW 0xFFFC 0x00) in
  let r2 := tick (fst r1) (M6502_MAKE_PINS M6502_RW 0xFFFD 0x00) in
  let l := M6502_GET_DATA (snd r1) in
  let h := M6502_GET_DATA (snd r2) in
  let c' := fst (m6502_reset Host tick c w) in
  S c' = 0xFD /\
  P c' = Z.lor M6502_IF M6502_XF /\
  PC c' = Z.lor (Z.shiftl h 8) l /\
  PC c' = 256 * h + l /\
  M6502_GET_ADDR (M6502_MAKE_PINS M6502_RW 0xFFFC 0x00) = 0xFFFC /\
  M6502_GET_ADDR (M6502_MAKE_PINS M6502_RW 0xFFFD 0x00) = 0xFFFD /\
  snd (m6502_reset Host tick c w) = fst r2.
Proof.
  intros r1 r2 l h c'. subst c' l h r2 r1. unfold m6502_reset.
  destruct (tick w _) as [w1 p1]. cbn [fst snd].
  destruct (tick w1 _) as [w2 p2]. cbn [fst snd].
  pose proof (u8_range (Z.shiftr (Z.land p1 0xFF0000) 16)) as Hl.
  pose proof (u8_range (Z.shiftr (Z.land p2 0xFF0000) 16)) as Hh.
  fold (M6502_GET_DATA p1) in Hl. fold (M6502_GET_DATA p2) in Hh.
  assert (Hpc : u16 (Z.lor (Z.shiftl (M6502_GET_DATA p2) 8) (M6502_GET_DATA p1))
                = Z.lor (Z.shiftl (M6502_GET_DATA p2) 8) (M6502_GET_DATA p1)).
  { apply u16_small. rewrite lor_shiftl_byte by exact Hl.
    unfold is_u8, is_u16 in *. lia. }
  cbn [S P PC set_PC set_PINS set_S set_P set_irq_taken].
  rewrite Hpc.
  repeat split; try reflexivity.
  rewrite lor_shiftl_byte by exact Hl. lia.
Qed.

(** C10. For every CPU state, [m6502_reset] keeps [A], [X], [Y] (and
    [break_mask]): the struct it leaves differs from the one it was
    given in [irq_taken], [P], [S], [PINS] and [PC] at most. *)
Theorem reset_frame (c : m6502_t) (w : Host) :
  let c' := fst (m6502_reset Host tick c w) in
  A c' = A c /\ X c' = X c /\ Y c' = Y c /\ break_mask c' = break_mask c /\
  c' = {| PINS := M6502_RW; A := A c; X := X c; Y := Y c;
          S := 0xFD; P := Z.lor M6502_IF M6502_XF; PC := PC c';
          irq_taken := false; break_mask := break_mask c |}.
Proof.
  intros c'. subst c'. unfold m6502_reset.
  destruct (tick w _) as [w1 p1]. destruct (tick w1 _) as [w2 p2].
  repeat split; reflexivity.
Qed.

End Reset.

(** The scenario of the documentation: reset vector [0x0200] in ROM. *)
Example reset_demo :
  let c' := fst (m6502_reset nat (rom_tick demo_mem) m6502_init 0%nat) in
  (PC c', S c', P c', A c') = (0x0200, 0xFD, 0x24, 0).
Proof. reflexivity. Qed.

(** ** Updating a pin word in place *)

Section PinUpdate.

Variables p a d : Z.

(** The masks of the two update macros, against one another. *)
Lemma set_addr_low :
  Z.land (M6502_SET_ADDR p a) 0xFFFF = Z.land a 0xFFFF.
Proof.
  unfold M6502_SET_ADDR. rewrite land_lor, !land_land.
  change (Z.land (Z.lnot 0xFFFF) 0xFFFF) with 0.
  change (Z.land 0xFFFF 0xFFFF) with 0xFFFF.
  rewrite Z.land_0_r, Z.lor_0_l. reflexivity.
Qed.

Lemma set_addr_rest :
  Z.land (M6502_SET_ADDR p a) (Z.lnot 0xFFFF) = Z.land p (Z.lnot 0xFFFF).
Proof.
  unfold M6502_SET_ADDR. rewrite land_lor, !land_land.
  change (Z.land (Z.lnot 0xFFFF) (Z.lnot 0xFFFF)) with (Z.lnot 0xFFFF).
  change (Z.land 0xFFFF (Z.lnot 0xFFFF)) with 0.
  rewrite Z.land_0_r, Z.lor_0_r. reflexivity.
Qed.

Lemma set_data_mid :
  Z.land (M6502_SET_DATA p d) 0xFF0000 = Z.land (Z.shiftl d 16) 0xFF0000.
Proof.
  unfold M6502_SET_DATA. rewrite land_lor, !land_land.
  change (Z.land (Z.lnot 0xFF0000) 0xFF0000) with 0.
  change (Z.land 0xFF0000 0xFF0000) with 0xFF0000.
  rewrite Z.land_0_r, Z.lor_0_l. reflexivity.
Qed.

Lemma set_data_rest :
  Z.land (M6502_SET_DATA p d) (Z.lnot 0xFF0000) = Z.land p (Z.lnot 0xFF0000).
Proof.
  unfold M6502_SET_DATA. rewrite land_lor, !land_land.
  change (Z.land (Z.lnot 0xFF0000) (Z.lnot 0xFF0000)) with (Z.lnot 0xFF0000).
  change (Z.land 0xFF0000 (Z.lnot 0xFF0000)) with 0.
  rewrite Z.land_0_r, Z.lor_0_r. reflexivity.
Qed.

(** Whatever is shifted into the data field, the field holds its low
    eight bits. *)
Lemma data_field_byte :
  Z.shiftr (Z.land (Z.shiftl d 16) 0xFF0000) 16 = u8 d.
Proof.
  rewrite Z.shiftr_land, Z.shiftr_shiftl_l by lia.
  change (16 - 16) with 0. rewrite Z.shiftl_0_r.
  change (Z.shiftr 0xFF0000 16) with 0xFF.
  symmetry. apply u8_land.
Qed.

End PinUpdate.

Lemma u16_idem x : u16 (u16 x) = u16 x.
Proof. apply u16_small. unfold is_u16, u16. apply Z.mod_pos_bound. lia. Qed.

Lemma u8_idem x : u8 (u8 x) = u8 x.
Proof. apply u8_small, u8_range. Qed.

(** X1. [M6502_SET_ADDR] then [M6502_GET_ADDR] gives back the address
    reduced to 16 bits, for any pin word and any address value; the data
    byte and every bit above the address field are those of the word
    before. *)
Theorem set_addr_get_addr (p a : Z) :
  M6502_GET_ADDR (M6502_SET_ADDR p a) = u16 a /\
  M6502_GET_DATA (M6502_SET_ADDR p a) = M6502_GET_DATA p /\
  Z.land (M6502_SET_ADDR p a) (Z.lnot 0xFFFF) = Z.land p (Z.lnot 0xFFFF).
Proof.
  split; [| split].
  - unfold M6502_GET_ADDR. rewrite set_addr_low, <- u16_land. apply u16_idem.
  - unfold M6502_GET_DATA. f_equal. f_equal.
    change 0xFF0000 with (Z.land (Z.lnot 0xFFFF) 0xFF0000).
    rewrite <- !land_land, set_addr_rest. reflexivity.
  - apply set_addr_rest.
Qed.

(** X2. [M6502_SET_DATA] then [M6502_GET_DATA] gives back the data value
    reduced to 8 bits; the address and every bit outside the data field
    are those of the word before. *)
Theorem set_data_get_data (p d : Z) :
  M6502_GET_DATA (M6502_SET_DATA p d) = u8 d /\
  M6502_GET_ADDR (M6502_SET_DATA p d) = M6502_GET_ADDR p /\
  Z.land (M6502_SET_DATA p d) (Z.lnot 0xFF0000) = Z.land p (Z.lnot 0xFF0000).
Proof.
  split; [| split].
  - unfold M6502_GET_DATA. rewrite set_data_mid, data_field_byte. apply u8_idem.
  - unfold M6502_GET_ADDR. f_equal.
    change 0xFFFF with (Z.land (Z.lnot 0xFF0000) 0xFFFF).
    rewrite <- !land_land, set_data_rest. reflexivity.
  - apply set_data_rest.
Qed.

(** X3. The two update macros overwrite and do not interfere: a second
    [M6502_SET_ADDR] (or [M6502_SET_DATA]) replaces the first, and
    setting the address and the data in either order gives the same
    word. *)
Theorem set_addr_set_data_compose (p a b d e : Z) :
  M6502_SET_ADDR (M6502_SET_ADDR p a) b = M6502_SET_ADDR p b /\
  M6502_SET_DATA (M6502_SET_DATA p d) e = M6502_SET_DATA p e /\
  M6502_SET_ADDR (M6502_SET_DATA p d) a = M6502_SET_DATA (M6502_SET_ADDR p a) d.
Proof.
  split; [| split].
  - unfold M6502_SET_ADDR at 1. rewrite set_addr_rest. reflexivity.
  - unfold M6502_SET_DATA at 1. rewrite set_data_rest. reflexivity.
  - unfold M6502_SET_ADDR, M6502_SET_DATA.
    rewrite !land_lor, !land_land.
    change (Z.land 0xFF0000 (Z.lnot 0xFFFF)) with 0xFF0000.
    change (Z.land 0xFFFF (Z.lnot 0xFF0000)) with 0xFFFF.
    rewrite (Z.land_comm (Z.lnot 0xFFFF) (Z.lnot 0xFF0000)).
    rewrite <- !Z.lor_assoc. f_equal. apply Z.lor_comm.
Qed.

(** A word with nothing in its low 24 bits is its own part above them. *)
Lemma high_part ctrl :
  Z.land ctrl 0xFFFFFF = 0 -> Z.land ctrl (Z.lnot 0xFFFFFF) = ctrl.
Proof.
  intros Hc.
  assert (E : ctrl = Z.lor (Z.land ctrl 0xFFFFFF)
                           (Z.land ctrl (Z.lnot 0xFFFFFF))).
  { rewrite <- Z.land_lor_distr_r.
    change (Z.lor 0xFFFFFF (Z.lnot 0xFFFFFF)) with (-1).
    symmetry. apply Z.land_m1_r. }
  rewrite Hc, Z.lor_0_l in E. symmetry. exact E.
Qed.

(** X4. For control bits that stay clear of the address and data fields
    (nothing in the low 24 bits), [M6502_MAKE_PINS] is what setting the
    data and then the address on the bare control word gives. *)
Theorem make_pins_is_set (ctrl a d : Z) :
  Z.land ctrl 0xFFFFFF = 0 ->
  M6502_MAKE_PINS ctrl a d = M6502_SET_ADDR (M6502_SET_DATA ctrl d) a.
Proof.
  intros Hc.
  unfold M6502_MAKE_PINS, M6502_SET_ADDR, M6502_SET_DATA.
  rewrite !land_lor, !land_land.
  change (Z.land (Z.lnot 0xFF0000) (Z.lnot 0xFFFF)) with (Z.lnot 0xFFFFFF).
  change (Z.land 0xFF0000 (Z.lnot 0xFFFF)) with 0xFF0000.
  rewrite (high_part ctrl Hc). reflexivity.
Qed.

Lemma make_pins_is_set_witness :
  Z.land M6502_RW 0xFFFFFF = 0 /\
  M6502_MAKE_PINS M6502_RW 0xFFFC 0x42
  = M6502_SET_ADDR (M6502_SET_DATA M6502_RW 0x42) 0xFFFC.
Proof.
  assert (Hc : Z.land M6502_RW 0xFFFFFF = 0) by reflexivity.
  split; [exact Hc |].
  exact (make_pins_is_set M6502_RW 0xFFFC 0x42 Hc).
Defined.

(** ** Reset after power-on *)

Section ResetInit.

Variable Host : Type.
Variable tick : Host -> Z -> Host * Z.

(** X5. [m6502_init] already leaves [S], [P], [PINS] and [irq_taken] at
    the values [m6502_reset] sets: resetting a freshly initialised CPU
    changes nothing but [PC], and resetting any CPU a second time can
    change nothing but [PC] either. *)
Theorem reset_after_init (c : m6502_t) (w w' : Host) :
  fst (m6502_reset Host tick m6502_init w)
    = set_PC m6502_init (PC (fst (m6502_reset Host tick m6502_init w))) /\
  fst (m6502_reset Host tick (fst (m6502_reset Host tick c w)) w')
    = set_PC (fst (m6502_reset Host tick c w))
             (PC (fst (m6502_reset Host tick (fst (m6502_reset Host tick c w)) w'))).
Proof.
  split.
  - unfold m6502_reset.
    destruct (tick w _) as [w1 p1]. destruct (tick w1 _) as [w2 p2].
    reflexivity.
  - unfold m6502_reset.
    destruct (tick w _) as [w1 p1]. destruct (tick w1 _) as [w2 p2].
    destruct (tick w' _) as [w3 p3]. destruct (tick w3 _) as [w4 p4].
    reflexivity.
Qed.

End ResetInit.

End M6502_Spec.

(** * Properties of the Z80 core *)

Module Z80_Spec.
Import Z80.
Local Open Scope z80_scope.

(** ** The ALU *)

Section ALU.

Context {Ctx : Type}.
Implicit Types cpu : z80 Ctx.

(** Storing into [F] keeps the low eight bits, so a mask below 256 sees
    the flag expression itself. *)
Lemma u8_masked x m : Z.land 0xFF m = m -> Z.land (u8 x) m = Z.land x m.
Proof. intros Hm. now rewrite u8_land, land_land, Hm. Qed.

Lemma u8_bit0 x : Z.testbit (u8 x) 0 = Z.testbit x 0.
Proof. rewrite u8_land, bit0_land. apply andb_true_r. Qed.

(** [_SZ] only ever produces bits 6 and 7. *)
Lemma SZ_bit0 res : Z.testbit (_SZ res) 0 = false.
Proof.
  unfold _SZ. destruct (Z.land res 0xFF =? 0); [reflexivity |].
  rewrite bit0_land. apply andb_false_r.
Qed.

Lemma SZ_masked res m : Z.land 0xC0 m = 0 -> Z.land (_SZ res) m = 0.
Proof.
  intros Hm. unfold _SZ. destruct (Z.land res 0xFF =? 0).
  - change Z80_ZF with (Z.land 0x40 0xC0).
    rewrite land_land, Hm. apply Z.land_0_r.
  - change Z80_SF with (Z.land 0x80 0xC0).
    rewrite !land_land, Hm, !Z.land_0_r. reflexivity.
Qed.

(** Bit 0 of the flags an addition computes is bit 8 of its result. *)
Lemma ADD_FLAGS_carry acc val res :
  Z.testbit (_ADD_FLAGS acc val res) 0 = Z.testbit res 8.
Proof.
  unfold _ADD_FLAGS, _SZYXCH.
  rewrite !bit0_lor, !bit0_land, SZ_bit0.
  rewrite Z.shiftr_spec by lia.
  change (Z.testbit (Z.lor Z80_YF Z80_XF) 0) with false.
  change (Z.testbit Z80_CF 0) with true.
  change (Z.testbit Z80_HF 0) with false.
  change (Z.testbit Z80_VF 0) with false.
  rewrite !andb_false_r, andb_true_r, !orb_false_r. reflexivity.
Qed.

(** C1. For every accumulator value [a], operand [val] and carry-in bit
    [c] (bit 0 of [F]), [_z80_adc8] stores [(a + val + c) mod 256] into
    [A] and sets [Z80_CF] exactly when bit 8 of [a + val + c] is set;
    [_z80_add8] does the same with [c = 0]. *)
Theorem add8_adc8_sum_and_carry cpu (val : Z) :
  let a := A cpu in
  let c := Z.b2z (Z.testbit (F cpu) 0) in
  A (_z80_adc8 cpu val) = (a + val + c) mod 256 /\
  flag_set (F (_z80_adc8 cpu val)) Z80_CF = Z.testbit (a + val + c) 8 /\
  A (_z80_add8 cpu val) = (a + val + 0) mod 256 /\
  flag_set (F (_z80_add8 cpu val)) Z80_CF = Z.testbit (a + val + 0) 8.
Proof.
  intros a c. subst a c.
  unfold _z80_adc8, _z80_add8. cbn [A F set_A set_F].
  change Z80_CF with 1. rewrite !flag_set_bit0, !u8_bit0, !ADD_FLAGS_carry.
  rewrite land_1_bit, Z.add_0_r.
  repeat split; reflexivity.
Qed.

(** On bytes, that bit is the carry out of the eight-bit addition. *)
Corollary adc8_carry_out cpu (val : Z) :
  is_u8 (A cpu) -> is_u8 val ->
  flag_set (F (_z80_adc8 cpu val)) Z80_CF
  = (255 <? A cpu + val + Z.b2z (Z.testbit (F cpu) 0)).
Proof.
  intros Ha Hv. unfold is_u8 in *.
  unfold _z80_adc8. cbn [A F set_A set_F].
  change Z80_CF with 1. rewrite flag_set_bit0, u8_bit0, ADD_FLAGS_carry.
  rewrite land_1_bit. apply bit8_overflow.
  destruct (Z.testbit (F cpu) 0); cbn [Z.b2z]; lia.
Qed.

(** C5. For every accumulator value and operand [val], [_z80_cp8]
    leaves [A] (and every member other than [F]) as it was, gives the
    sign, zero, half-carry, overflow, subtract and carry flags the
    values [_z80_sub8] gives them for the same operands, and takes
    [Z80_XF] and [Z80_YF] from [val]. *)
Theorem cp8_flags cpu (val : Z) :
  A (_z80_cp8 cpu val) = A cpu /\
  _z80_cp8 cpu val = set_F cpu (F (_z80_cp8 cpu val)) /\
  Z.land (F (_z80_cp8 cpu val)) Z80_SZHVNC
    = Z.land (F (_z80_sub8 cpu val)) Z80_SZHVNC /\
  Z.land (F (_z80_cp8 cpu val)) Z80_YX = Z.land val Z80_YX.
Proof.
  unfold _z80_cp8, _z80_sub8. cbn [A F set_A set_F].
  repeat split.
  - rewrite !u8_masked by reflexivity.
    unfold _CP_FLAGS, _SUB_FLAGS, _SZYXCH.
    rewrite !land_lor, !land_land.
    change (Z.land (Z.lor Z80_YF Z80_XF) Z80_SZHVNC) with 0.
    rewrite !Z.land_0_r. reflexivity.
  - rewrite u8_masked by reflexivity.
    unfold _CP_FLAGS.
    rewrite !land_lor, !land_land, SZ_masked by reflexivity.
    change (Z.land Z80_NF Z80_YX) with 0.
    change (Z.land Z80_CF Z80_YX) with 0.
    change (Z.land Z80_HF Z80_YX) with 0.
    change (Z.land Z80_VF Z80_YX) with 0.
    change (Z.land (Z.lor Z80_YF Z80_XF) Z80_YX) with Z80_YX.
    rewrite !Z.land_0_r, !Z.lor_0_r, !Z.lor_0_l. reflexivity.
Qed.

(** The subtraction, by contrast, takes the two bits from its result and
    stores that result. *)
Lemma sub8_flags cpu (val : Z) :
  A (_z80_sub8 cpu val) = (A cpu - val) mod 256 /\
  Z.land (F (_z80_sub8 cpu val)) Z80_YX = Z.land (A cpu - val) Z80_YX.
Proof.
  unfold _z80_sub8. cbn [A F set_A set_F]. split; [reflexivity |].
  rewrite u8_masked by reflexivity.
  unfold _SUB_FLAGS, _SZYXCH.
  rewrite !land_lor, !land_land, SZ_masked by reflexivity.
  change (Z.land Z80_NF Z80_YX) with 0.
  change (Z.land Z80_CF Z80_YX) with 0.
  change (Z.land Z80_HF Z80_YX) with 0.
  change (Z.land Z80_VF Z80_YX) with 0.
  change (Z.land (Z.lor Z80_YF Z80_XF) Z80_YX) with Z80_YX.
  rewrite !Z.land_0_r, !Z.lor_0_r, !Z.lor_0_l. reflexivity.
Qed.

(** [CP 8] with [A = 8]: [A] stays and bit 3 of [F] comes from the
    operand; [SUB 8] stores the zero result and takes bit 3 from it. *)
Example cp8_demo :
  let cpu := set_A (z80_init tt) 0x08 in
  (A (_z80_cp8 cpu 0x08), F (_z80_cp8 cpu 0x08),
   A (_z80_sub8 cpu 0x08), F (_z80_sub8 cpu 0x08))
  = (0x08, 0x4A, 0x00, 0x42).
Proof. reflexivity. Qed.

Example adc8_demo :
  let cpu := set_F (set_A (z80_init tt) 0xFF) Z80_CF in
  (A (_z80_adc8 cpu 0x00), F (_z80_adc8 cpu 0x00)) = (0x00, 0x51).
Proof. reflexivity. Qed.

End ALU.

(** ** The flags, one at a time *)

Section Flags.

Context {Ctx : Type}.
Implicit Types cpu : z80 Ctx.

(** Bit [n] of each flag constant, computed. *)
Ltac bit_const k n :=
  let v := eval vm_compute in (Z.testbit k n) in
  change (Z.testbit k n) with v.

Ltac flag_consts n :=
  bit_const Z80_CF n; bit_const Z80_NF n; bit_const Z80_VF n;
  bit_const Z80_HF n; bit_const Z80_ZF n; bit_const Z80_SF n;
  bit_const (Z.lor Z80_YF Z80_XF) n;
  rewrite ?andb_false_r, ?andb_true_r, ?orb_false_r, ?orb_false_l.

(** [_SZ] sets Z for a zero byte and otherwise copies bit 7. *)
Lemma SZ_zero res : Z.testbit (_SZ res) 6 = (u8 res =? 0).
Proof.
  unfold _SZ. rewrite u8_land.
  destruct (Z.land res 0xFF =? 0); [reflexivity |].
  rewrite Z.land_spec. apply andb_false_r.
Qed.

Lemma SZ_sign res : Z.testbit (_SZ res) 7 = Z.testbit res 7.
Proof.
  unfold _SZ.
  destruct (Z.eqb_spec (Z.land res 0xFF) 0) as [E | E].
  - rewrite <- (u8_testbit res 7), u8_land, E by lia. reflexivity.
  - rewrite !Z.land_spec.
    change (Z.testbit Z80_SF 7) with true. apply andb_true_r.
Qed.

Lemma SZ_other res n : n <> 6 -> n <> 7 -> 0 <= n -> Z.testbit (_SZ res) n = false.
Proof.
  intros H6 H7 Hn. unfold _SZ.
  destruct (Z.land res 0xFF =? 0).
  - change Z80_ZF with (2 ^ 6). apply Z.pow2_bits_false. lia.
  - rewrite Z.land_spec. change Z80_SF with (2 ^ 7).
    rewrite Z.pow2_bits_false by lia. apply andb_false_r.
Qed.

(** The flags that only look at the result byte. *)
Lemma SZYXCH_result acc val res :
  Z.testbit (_SZYXCH acc val res) 6 = (u8 res =? 0) /\
  Z.testbit (_SZYXCH acc val res) 7 = Z.testbit res 7 /\
  Z.testbit (_SZYXCH acc val res) 5 = Z.testbit res 5 /\
  Z.testbit (_SZYXCH acc val res) 3 = Z.testbit res 3 /\
  Z.testbit (_SZYXCH acc val res) 1 = false /\
  Z.testbit (_SZYXCH acc val res) 2 = false.
Proof.
  unfold _SZYXCH. rewrite !Z.lor_spec, !Z.land_spec.
  rewrite SZ_zero, SZ_sign, !SZ_other by lia.
  repeat split.
  - flag_consts 6. reflexivity.
  - flag_consts 7. reflexivity.
  - flag_consts 5. reflexivity.
  - flag_consts 3. reflexivity.
  - flag_consts 1. reflexivity.
  - flag_consts 2. reflexivity.
Qed.

(** X6. After [_z80_add8] and [_z80_adc8], whatever the operands: Z is
    set exactly when the stored result is zero, S, Y and X are bits 7, 5
    and 3 of the stored result, and N is clear. *)
Theorem add_result_flags cpu (val : Z) :
  (let r := _z80_add8 cpu val in
   flag_set (F r) Z80_ZF = (A r =? 0) /\
   flag_set (F r) Z80_SF = Z.testbit (A r) 7 /\
   flag_set (F r) Z80_YF = Z.testbit (A r) 5 /\
   flag_set (F r) Z80_XF = Z.testbit (A r) 3 /\
   flag_set (F r) Z80_NF = false) /\
  (let r := _z80_adc8 cpu val in
   flag_set (F r) Z80_ZF = (A r =? 0) /\
   flag_set (F r) Z80_SF = Z.testbit (A r) 7 /\
   flag_set (F r) Z80_YF = Z.testbit (A r) 5 /\
   flag_set (F r) Z80_XF = Z.testbit (A r) 3 /\
   flag_set (F r) Z80_NF = false).
Proof.
  unfold _z80_add8, _z80_adc8. cbn [A F set_A set_F]. cbv zeta.
  unfold Z80_ZF, Z80_SF, Z80_YF, Z80_XF, Z80_NF.
  rewrite !flag_bit, !u8_testbit by lia.
  unfold _ADD_FLAGS. rewrite !Z.lor_spec, !Z.land_spec.
  split.
  - destruct (SZYXCH_result (A cpu) val (A cpu + val))
      as (-> & -> & -> & -> & -> & _).
    repeat apply conj.
    + flag_consts 6. reflexivity.
    + flag_consts 7. reflexivity.
    + flag_consts 5. reflexivity.
    + flag_consts 3. reflexivity.
    + flag_consts 1. reflexivity.
  - destruct (SZYXCH_result (A cpu) val (A cpu + val + Z.land (F cpu) Z80_CF))
      as (-> & -> & -> & -> & -> & _).
    repeat apply conj.
    + flag_consts 6. reflexivity.
    + flag_consts 7. reflexivity.
    + flag_consts 5. reflexivity.
    + flag_consts 3. reflexivity.
    + flag_consts 1. reflexivity.
Qed.

(** The exhaustive checks, once per carry-in. *)
Lemma add_hv_all c a v :
  c = 0 \/ c = 1 -> is_u8 a -> is_u8 v -> add_hv_ok c a v = true.
Proof.
  intros [-> | ->]; apply forall_bytes2; vm_compute; reflexivity.
Qed.

Lemma sub_hv_all c a v :
  c = 0 \/ c = 1 -> is_u8 a -> is_u8 v -> sub_hv_ok c a v = true.
Proof.
  intros [-> | ->]; apply forall_bytes2; vm_compute; reflexivity.
Qed.

Lemma carry_in_bit f : Z.b2z (Z.testbit f 0) = 0 \/ Z.b2z (Z.testbit f 0) = 1.
Proof. destruct (Z.testbit f 0); [right | left]; reflexivity. Qed.

(** X7. On byte operands, the H flag after [_z80_adc8] / [_z80_add8] is
    the carry out of the low nibble, and the V flag says that the sum of
    the operands read as signed bytes (plus the carry-in) does not fit a
    signed byte. *)
Theorem add_half_carry_overflow cpu (val : Z) :
  is_u8 (A cpu) -> is_u8 val ->
  let c := Z.b2z (Z.testbit (F cpu) 0) in
  flag_set (F (_z80_adc8 cpu val)) Z80_HF = half_carry (A cpu) val c /\
  flag_set (F (_z80_adc8 cpu val)) Z80_VF
    = signed_overflow (s8 (A cpu) + s8 val + c) /\
  flag_set (F (_z80_add8 cpu val)) Z80_HF = half_carry (A cpu) val 0 /\
  flag_set (F (_z80_add8 cpu val)) Z80_VF
    = signed_overflow (s8 (A cpu) + s8 val + 0).
Proof.
  intros Ha Hv c.
  pose proof (add_hv_all c (A cpu) val (carry_in_bit (F cpu)) Ha Hv) as H1.
  pose proof (add_hv_all 0 (A cpu) val (or_introl eq_refl) Ha Hv) as H0.
  unfold add_hv_ok in H0, H1. cbv zeta in H0, H1.
  apply andb_true_iff in H0. apply andb_true_iff in H1.
  destruct H0 as [H0h H0v]. destruct H1 as [H1h H1v].
  apply eqb_prop in H0h, H0v, H1h, H1v.
  unfold _z80_adc8, _z80_add8. cbn [A F set_A set_F].
  change (Z.land (F cpu) Z80_CF) with (Z.land (F cpu) 1).
  rewrite land_1_bit. fold c.
  rewrite Z.add_0_r in H0h, H0v.
  repeat split; assumption.
Qed.

(** X8. After [_z80_sub8] and [_z80_sbc8], whatever the operands: [A]
    holds the difference (less the carry-in for [_z80_sbc8]) modulo 256,
    N is set, Z is set exactly when the stored result is zero, and S, Y
    and X are bits 7, 5 and 3 of the stored result. *)
Theorem sub_result_flags cpu (val : Z) :
  (let r := _z80_sub8 cpu val in
   A r = (A cpu - val) mod 256 /\
   flag_set (F r) Z80_NF = true /\
   flag_set (F r) Z80_ZF = (A r =? 0) /\
   flag_set (F r) Z80_SF = Z.testbit (A r) 7 /\
   flag_set (F r) Z80_YF = Z.testbit (A r) 5 /\
   flag_set (F r) Z80_XF = Z.testbit (A r) 3) /\
  (let r := _z80_sbc8 cpu val in
   A r = (A cpu - val - Z.b2z (Z.testbit (F cpu) 0)) mod 256 /\
   flag_set (F r) Z80_NF = true /\
   flag_set (F r) Z80_ZF = (A r =? 0) /\
   flag_set (F r) Z80_SF = Z.testbit (A r) 7 /\
   flag_set (F r) Z80_YF = Z.testbit (A r) 5 /\
   flag_set (F r) Z80_XF = Z.testbit (A r) 3).
Proof.
  unfold _z80_sub8, _z80_sbc8. cbn [A F set_A set_F]. cbv zeta.
  change (Z.land (F cpu) Z80_CF) with (Z.land (F cpu) 1).
  rewrite land_1_bit.
  unfold Z80_ZF, Z80_SF, Z80_YF, Z80_XF, Z80_NF.
  rewrite !flag_bit, !u8_testbit by lia.
  unfold _SUB_FLAGS. rewrite !Z.lor_spec, !Z.land_spec.
  split.
  - destruct (SZYXCH_result (A cpu) val (A cpu - val))
      as (-> & -> & -> & -> & -> & _).
    split; [reflexivity |]. repeat apply conj.
    + flag_consts 1. reflexivity.
    + flag_consts 6. reflexivity.
    + flag_consts 7. reflexivity.
    + flag_consts 5. reflexivity.
    + flag_consts 3. reflexivity.
  - destruct (SZYXCH_result (A cpu) val
                (A cpu - val - Z.b2z (Z.testbit (F cpu) 0)))
      as (-> & -> & -> & -> & -> & _).
    split; [reflexivity |]. repeat apply conj.
    + flag_consts 1. reflexivity.
    + flag_consts 6. reflexivity.
    + flag_consts 7. reflexivity.
    + flag_consts 5. reflexivity.
    + flag_consts 3. reflexivity.
Qed.

(** X9. On byte operands, after [_z80_sbc8] / [_z80_sub8] the C flag is
    the borrow ([A] below the operand plus carry-in), the H flag is the
    borrow into the low nibble, and the V flag says that the difference
    of the operands read as signed bytes does not fit a signed byte. *)
Theorem sub_borrow_overflow cpu (val : Z) :
  is_u8 (A cpu) -> is_u8 val ->
  let c := Z.b2z (Z.testbit (F cpu) 0) in
  flag_set (F (_z80_sbc8 cpu val)) Z80_CF = (A cpu <? val + c) /\
  flag_set (F (_z80_sbc8 cpu val)) Z80_HF = half_borrow (A cpu) val c /\
  flag_set (F (_z80_sbc8 cpu val)) Z80_VF
    = signed_overflow (s8 (A cpu) - s8 val - c) /\
  flag_set (F (_z80_sub8 cpu val)) Z80_CF = (A cpu <? val) /\
  flag_set (F (_z80_sub8 cpu val)) Z80_HF = half_borrow (A cpu) val 0 /\
  flag_set (F (_z80_sub8 cpu val)) Z80_VF
    = signed_overflow (s8 (A cpu) - s8 val).
Proof.
  intros Ha Hv c.
  pose proof (sub_hv_all c (A cpu) val (carry_in_bit (F cpu)) Ha Hv) as H1.
  pose proof (sub_hv_all 0 (A cpu) val (or_introl eq_refl) Ha Hv) as H0.
  unfold sub_hv_ok in H0, H1. cbv zeta in H0, H1.
  rewrite !andb_true_iff in H0, H1.
  destruct H0 as [[H0h H0v] H0c]. destruct H1 as [[H1h H1v] H1c].
  apply eqb_prop in H0h, H0v, H0c, H1h, H1v, H1c.
  unfold _z80_sbc8, _z80_sub8. cbn [A F set_A set_F].
  change (Z.land (F cpu) Z80_CF) with (Z.land (F cpu) 1).
  rewrite land_1_bit. fold c.
  repeat rewrite Z.sub_0_r in H0h. repeat rewrite Z.sub_0_r in H0v.
  repeat rewrite Z.sub_0_r in H0c. rewrite Z.add_0_r in H0c.
  repeat split; assumption.
Qed.

(** A difference of two bytes is zero modulo 256 only if they are equal. *)
Lemma u8_diff_zero a v : is_u8 a -> is_u8 v -> (u8 (a - v) =? 0) = (a =? v).
Proof.
  unfold is_u8, u8. change (2 ^ 8) with 256. intros Ha Hv.
  destruct (Z.eqb_spec a v) as [-> | Hne].
  - rewrite Z.sub_diag. reflexivity.
  - apply Z.eqb_neq. intros Hz.
    apply Z.mod_divide in Hz; [| lia]. destruct Hz as [k Hk]. lia.
Qed.

(** X10. On bytes, [_z80_cp8] decides the order of [A] and the operand:
    Z is set exactly when they are equal and C exactly when [A] is the
    smaller; N is set. *)
Theorem cp8_orders_bytes cpu (val : Z) :
  is_u8 (A cpu) -> is_u8 val ->
  flag_set (F (_z80_cp8 cpu val)) Z80_ZF = (A cpu =? val) /\
  flag_set (F (_z80_cp8 cpu val)) Z80_CF = (A cpu <? val) /\
  flag_set (F (_z80_cp8 cpu val)) Z80_NF = true.
Proof.
  intros Ha Hv. unfold _z80_cp8. cbn [F set_F].
  unfold Z80_ZF, Z80_CF, Z80_NF.
  rewrite !flag_bit, !u8_testbit by lia.
  unfold _CP_FLAGS. rewrite !Z.lor_spec, !Z.land_spec.
  rewrite SZ_zero, !SZ_other by lia. rewrite !Z.shiftr_spec by lia.
  repeat apply conj.
  - flag_consts 6. apply u8_diff_zero; assumption.
  - flag_consts 0. cbn [Z.add]. rewrite bit8_borrow.
    + destruct (Z.ltb_spec (A cpu - val) 0), (Z.ltb_spec (A cpu) val);
        try reflexivity; lia.
    + unfold is_u8 in *. lia.
  - flag_consts 1. reflexivity.
Qed.

(** The signed overflow of a negation happens at [-128] only. *)
Lemma neg_overflow a : is_u8 a -> signed_overflow (s8 0 - s8 a) = (a =? 0x80).
Proof.
  unfold is_u8, signed_overflow, s8. intros Ha. cbn [Z.ltb Z.compare].
  destruct (Z.ltb_spec a 128), (Z.eqb_spec a 128),
    (Z.leb_spec (-128) (0 - a)), (Z.leb_spec (0 - a) 127),
    (Z.leb_spec (-128) (0 - (a - 256))), (Z.leb_spec (0 - (a - 256)) 127);
    try reflexivity; lia.
Qed.

(** X11. On a byte, [_z80_neg8] stores the two's complement of [A]; C
    is set unless [A] was zero, Z exactly when it was zero, V exactly
    when it was [0x80] (whose negation is itself), and negating twice
    gives [A] back. *)
Theorem neg8_bytes cpu :
  is_u8 (A cpu) ->
  A (_z80_neg8 cpu) = (- A cpu) mod 256 /\
  flag_set (F (_z80_neg8 cpu)) Z80_CF = negb (A cpu =? 0) /\
  flag_set (F (_z80_neg8 cpu)) Z80_ZF = (A cpu =? 0) /\
  flag_set (F (_z80_neg8 cpu)) Z80_VF = (A cpu =? 0x80) /\
  A (_z80_neg8 (_z80_neg8 cpu)) = A cpu.
Proof.
  intros Ha.
  assert (H0 : is_u8 0) by (unfold is_u8; lia).
  pose proof (sub_hv_all 0 0 (A cpu) (or_introl eq_refl) H0 Ha) as Hs.
  unfold sub_hv_ok in Hs. cbv zeta in Hs.
  rewrite !andb_true_iff in Hs. destruct Hs as [[_ Hv] Hc].
  apply eqb_prop in Hv, Hc.
  repeat rewrite Z.sub_0_r in Hv. repeat rewrite Z.sub_0_r in Hc.
  rewrite Z.add_0_r in Hc.
  unfold _z80_neg8, _z80_sub8. cbn [A F set_A set_F].
  repeat apply conj.
  - reflexivity.
  - rewrite Hc. unfold is_u8 in Ha.
    destruct (Z.ltb_spec 0 (A cpu)), (Z.eqb_spec (A cpu) 0);
      try reflexivity; lia.
  - unfold Z80_ZF. rewrite flag_bit, u8_testbit by lia.
    unfold _SUB_FLAGS. rewrite !Z.lor_spec, !Z.land_spec.
    destruct (SZYXCH_result 0 (A cpu) (0 - A cpu)) as (-> & _).
    flag_consts 6. rewrite u8_diff_zero by assumption.
    apply Z.eqb_sym.
  - rewrite Hv. apply neg_overflow, Ha.
  - unfold is_u8, u8 in *. change (2 ^ 8) with 256 in *.
    destruct (Z.eq_dec (A cpu) 0) as [-> | Hnz]; [reflexivity |].
    replace ((0 - A cpu) mod 256) with (256 - A cpu).
    + replace (0 - (256 - A cpu)) with (A cpu + (-1) * 256) by lia.
      rewrite Z.mod_add by lia. apply Z.mod_small. lia.
    + apply Z.mod_unique with (q := -1); lia.
Qed.

End Flags.

(** [0x7F + 1] with carry-in clear: half carry and signed overflow. *)
Lemma add_half_carry_overflow_witness :
  is_u8 (A acc_7f) /\ is_u8 0x01 /\
  flag_set (F (_z80_adc8 acc_7f 0x01)) Z80_HF
    = half_carry (A acc_7f) 0x01 (Z.b2z (Z.testbit (F acc_7f) 0)) /\
  flag_set (F (_z80_adc8 acc_7f 0x01)) Z80_VF
    = signed_overflow (s8 (A acc_7f) + s8 0x01 + Z.b2z (Z.testbit (F acc_7f) 0)) /\
  flag_set (F (_z80_add8 acc_7f 0x01)) Z80_HF = half_carry (A acc_7f) 0x01 0 /\
  flag_set (F (_z80_add8 acc_7f 0x01)) Z80_VF
    = signed_overflow (s8 (A acc_7f) + s8 0x01 + 0).
Proof.
  assert (Ha : is_u8 (A acc_7f)) by (unfold is_u8; cbn; lia).
  assert (Hv : is_u8 0x01) by (unfold is_u8; lia).
  split; [exact Ha |]. split; [exact Hv |].
  exact (add_half_carry_overflow acc_7f 0x01 Ha Hv).
Defined.

(** [0x10 - 0x20]: a borrow, no half borrow, no signed overflow. *)
Lemma sub_borrow_overflow_witness :
  is_u8 (A acc_10) /\ is_u8 0x20 /\
  flag_set (F (_z80_sbc8 acc_10 0x20)) Z80_CF
    = (A acc_10 <? 0x20 + Z.b2z (Z.testbit (F acc_10) 0)) /\
  flag_set (F (_z80_sbc8 acc_10 0x20)) Z80_HF
    = half_borrow (A acc_10) 0x20 (Z.b2z (Z.testbit (F acc_10) 0)) /\
  flag_set (F (_z80_sbc8 acc_10 0x20)) Z80_VF
    = signed_overflow (s8 (A acc_10) - s8 0x20 - Z.b2z (Z.testbit (F acc_10) 0)) /\
  flag_set (F (_z80_sub8 acc_10 0x20)) Z80_CF = (A acc_10 <? 0x20) /\
  flag_set (F (_z80_sub8 acc_10 0x20)) Z80_HF = half_borrow (A acc_10) 0x20 0 /\
  flag_set (F (_z80_sub8 acc_10 0x20)) Z80_VF
    = signed_overflow (s8 (A acc_10) - s8 0x20).
Proof.
  assert (Ha : is_u8 (A acc_10)) by (unfold is_u8; cbn; lia).
  assert (Hv : is_u8 0x20) by (unfold is_u8; lia).
  split; [exact Ha |]. split; [exact Hv |].
  exact (sub_borrow_overflow acc_10 0x20 Ha Hv).
Defined.


(** Comparing [0x10] with [0x20]. *)
Lemma cp8_orders_bytes_witness :
  is_u8 (A acc_10) /\ is_u8 0x20 /\
  flag_set (F (_z80_cp8 acc_10 0x20)) Z80_ZF = (A acc_10 =? 0x20) /\
  flag_set (F (_z80_cp8 acc_10 0x20)) Z80_CF = (A acc_10 <? 0x20) /\
  flag_set (F (_z80_cp8 acc_10 0x20)) Z80_NF = true.
Proof.
  assert (Ha : is_u8 (A acc_10)) by (unfold is_u8; cbn; lia).
  assert (Hv : is_u8 0x20) by (unfold is_u8; lia).
  split; [exact Ha |]. split; [exact Hv |].
  exact (cp8_orders_bytes acc_10 0x20 Ha Hv).
Defined.

(** Negating [0x80]. *)
Lemma neg8_bytes_witness :
  is_u8 (A acc_80) /\
  A (_z80_neg8 acc_80) = (- A acc_80) mod 256 /\
  flag_set (F (_z80_neg8 acc_80)) Z80_CF = negb (A acc_80 =? 0) /\
  flag_set (F (_z80_neg8 acc_80)) Z80_ZF = (A acc_80 =? 0) /\
  flag_set (F (_z80_neg8 acc_80)) Z80_VF = (A acc_80 =? 0x80) /\
  A (_z80_neg8 (_z80_neg8 acc_80)) = A acc_80.
Proof.
  assert (Ha : is_u8 (A acc_80)) by (unfold is_u8; cbn; lia).
  split; [exact Ha |].
  exact (neg8_bytes acc_80 Ha).
Defined.

Example neg8_demo :
  (A (_z80_neg8 acc_80), F (_z80_neg8 acc_80),
   A (_z80_neg8 acc_10), F (_z80_neg8 acc_10)) = (0x80, 0x87, 0xF0, 0xA3).
Proof. reflexivity. Qed.

(** ** Running the machine *)

Section Machine.

Context {Ctx : Type}.
Variable tick : z80 Ctx -> z80 Ctx.
Implicit Types s : machine Ctx.

(** Normal form of a nest of field stores over an explicit struct. *)
Ltac flatten :=
  cbv beta iota delta
      [drive pins_of IR HL
       C B E D L H A F BC_ DE_ HL_ AF_ WZ WZ_ IX IY R I SP PC
       CTRL ADDR DATA im imm1 imm2 ticks context
       set_C set_B set_E set_D set_L set_H set_A set_F set_R set_PC
       set_CTRL set_ADDR set_DATA set_ticks set_context cpu log];
  rewrite <- ?app_assoc; cbn [app].

(** Evaluation of the monad up to the next [_TICK], arithmetic left
    alone. *)
Ltac run :=
  cbn [bind ret get modify exec eval _ON _OFF _READ _WRITE fst snd];
  flatten.

Lemma exec_bind {T U} (m : M Ctx T) (k : T -> M Ctx U) s :
  exec (bind m k) s = exec (k (eval m s)) (exec m s).
Proof. unfold exec, eval, bind. destruct (m s) as [x s']. reflexivity. Qed.

(** [z80_step] is its M1 cycle, then the decoder, then the counter. *)
Lemma z80_step_split s :
  z80_step tick s
  = (ticks (cpu (exec (_z80_op tick) (exec (step_fetch tick) s))),
     exec (_z80_op tick) (exec (step_fetch tick) s)).
Proof.
  unfold z80_step, step_fetch, exec, bind, get, ret.
  destruct (modify _ s) as [u s0].
  destruct (_z80_fetch tick s0) as [u1 s1]. cbn [snd].
  destruct (_z80_op tick s1) as [u2 s2]. reflexivity.
Qed.

Lemma exec_step s :
  exec (z80_step tick) s = exec (_z80_op tick) (exec (step_fetch tick) s).
Proof. unfold exec at 1. rewrite z80_step_split. cbn [snd]. reflexivity. Qed.

Lemma eval_step s :
  eval (z80_step tick) s = ticks (cpu (exec (z80_step tick) s)).
Proof. unfold eval, exec. rewrite z80_step_split. cbn [fst snd]. reflexivity. Qed.

Lemma after_step_fetch {T} (m : M Ctx T) s :
  exec m (exec (step_fetch tick) s)
  = exec (bind (_z80_fetch tick) (fun _ => m))
         {| cpu := set_ticks (cpu s) 0; log := log s |}.
Proof.
  unfold step_fetch.
  rewrite (exec_bind (_z80_fetch tick)), (exec_bind (modify _)).
  reflexivity.
Qed.

Lemma exec_halt s : exec _z80_halt s = s.
Proof. reflexivity. Qed.

(** *** The decoder on three opcodes *)

Lemma op_nop s : DATA (cpu s) = 0x00 -> _z80_op tick s = (tt, s).
Proof.
  intros Hop. unfold _z80_op. cbn [bind get]. rewrite Hop. reflexivity.
Qed.

Lemma op_halt s : DATA (cpu s) = 0x76 -> _z80_op tick s = _z80_halt s.
Proof.
  intros Hop. unfold _z80_op. cbn [bind get]. rewrite Hop. reflexivity.
Qed.

Lemma op_ld_b_c s :
  DATA (cpu s) = 0x41 ->
  _z80_op tick s = (tt, {| cpu := set_B (cpu s) (C (cpu s)); log := log s |}).
Proof.
  intros Hop. unfold _z80_op. cbn [bind get]. rewrite Hop. reflexivity.
Qed.

(** *** Invocations of the callback, whatever it does *)

Lemma emits_modify f : emits 0 (modify (Ctx := Ctx) f).
Proof. intros s. exists []. split; [reflexivity |]. symmetry. apply app_nil_r. Qed.

Lemma emits_TICK : emits 1 (_TICK tick).
Proof. intros s. exists [pins_of (cpu s)]. split; reflexivity. Qed.

Lemma emits_bind {T U} n p (m : M Ctx T) (k : T -> M Ctx U) :
  emits n m -> (forall x, emits p (k x)) -> emits (n + p) (bind m k).
Proof.
  intros Hm Hk s. rewrite exec_bind.
  destruct (Hm s) as (l1 & Hn & E1).
  destruct (Hk (eval m s) (exec m s)) as (l2 & Hp & E2).
  exists (l1 ++ l2). split.
  - rewrite length_app. lia.
  - rewrite E2, E1. symmetry. apply app_assoc.
Qed.

Lemma emits_after_modify {U} n f (k : unit -> M Ctx U) :
  (forall x, emits n (k x)) -> emits n (bind (modify f) k).
Proof. intros Hk. apply (emits_bind 0 n); [apply emits_modify | exact Hk]. Qed.

Lemma emits_after_TICK {U} n (k : unit -> M Ctx U) :
  (forall x, emits n (k x)) -> emits (Datatypes.S n) (bind (_TICK tick) k).
Proof. intros Hk. apply (emits_bind 1 n); [apply emits_TICK | exact Hk]. Qed.

Ltac emits_seq :=
  unfold _ON, _OFF;
  repeat lazymatch goal with
         | |- emits _ (bind (modify _) _) => apply emits_after_modify; intros _
         | |- emits _ (bind (_TICK _) _) => apply emits_after_TICK; intros _
         | |- emits _ (modify _) => apply emits_modify
         | |- emits _ (_TICK _) => apply emits_TICK
         end.

(** The M1 cycle is four invocations, a write cycle three. *)
Lemma emits_fetch : emits 4 (_z80_fetch tick).
Proof. unfold _z80_fetch. emits_seq. Qed.

Lemma emits_write a d : emits 3 (_z80_write tick a d).
Proof. unfold _z80_write. emits_seq. Qed.

Lemma emits_step_fetch : emits 4 (step_fetch tick).
Proof. unfold step_fetch. apply emits_after_modify. intros _. apply emits_fetch. Qed.

(** *** Cycle counting *)

Lemma iter_bump_add n p t :
  Nat.iter (n + p) bump t = Nat.iter p bump (Nat.iter n bump t).
Proof. rewrite Nat.add_comm. apply Nat.iter_add. Qed.

(** Seven increments from zero are far from the 32-bit wrap. *)
Lemma iter_bump_small n : (n <= 7)%nat -> Nat.iter n bump 0 = Z.of_nat n.
Proof.
  intros Hn. do 8 (destruct n as [| n]; [reflexivity |]). lia.
Qed.

Lemma ticks_set_r8 (c : z80 Ctx) i v : ticks (set_r8 c i v) = ticks c.
Proof.
  unfold set_r8.
  repeat match goal with |- context [if ?b then _ else _] => destruct b end;
    reflexivity.
Qed.

Section Counting.

Hypothesis Hticks : keeps_ticks tick.

Lemma counted_weaken {T} b b' (m : M Ctx T) :
  (b <= b')%nat -> counted b m -> counted b' m.
Proof.
  intros Hb Hm s. destruct (Hm s) as (new & Hn & E & Et).
  exists new. repeat split; [lia | exact E | exact Et].
Qed.

Lemma counted_ret {T} (x : T) : counted 0 (ret (Ctx := Ctx) x).
Proof.
  intros s. exists []. repeat split; [reflexivity |].
  symmetry. apply app_nil_r.
Qed.

Lemma counted_get : counted 0 (get (Ctx := Ctx)).
Proof.
  intros s. exists []. repeat split; [reflexivity |].
  symmetry. apply app_nil_r.
Qed.

Lemma counted_modify f :
  (forall c : z80 Ctx, ticks (f c) = ticks c) -> counted 0 (modify f).
Proof.
  intros Hf s. exists []. repeat split.
  - reflexivity.
  - symmetry. apply app_nil_r.
  - apply Hf.
Qed.

Lemma counted_TICK : counted 1 (_TICK tick).
Proof.
  intros s. exists [pins_of (cpu s)]. repeat split; [reflexivity |].
  unfold _TICK, exec. cbn [snd cpu ticks set_ticks length Nat.iter].
  rewrite Hticks. reflexivity.
Qed.

Lemma counted_bind {T U} b1 b2 (m : M Ctx T) (k : T -> M Ctx U) :
  counted b1 m -> (forall x, counted b2 (k x)) -> counted (b1 + b2) (bind m k).
Proof.
  intros Hm Hk s. rewrite exec_bind.
  destruct (Hm s) as (l1 & Hn1 & E1 & Et1).
  destruct (Hk (eval m s) (exec m s)) as (l2 & Hn2 & E2 & Et2).
  exists (l1 ++ l2). repeat split.
  - rewrite length_app. lia.
  - rewrite E2, E1. symmetry. apply app_assoc.
  - rewrite Et2, Et1, length_app. symmetry. apply iter_bump_add.
Qed.

Lemma counted_after_silent {T U} b (m : M Ctx T) (k : T -> M Ctx U) :
  counted 0 m -> (forall x, counted b (k x)) -> counted b (bind m k).
Proof. intros Hm Hk. apply (counted_bind 0 b); assumption. Qed.

Lemma counted_after_TICK {U} b (k : unit -> M Ctx U) :
  (forall x, counted b (k x)) -> counted (Datatypes.S b) (bind (_TICK tick) k).
Proof. intros Hk. apply (counted_bind 1 b); [apply counted_TICK | exact Hk]. Qed.

Ltac keeps := intros ?; first [reflexivity | apply ticks_set_r8].

Ltac counted_seq :=
  unfold _READ, _WRITE, _ON, _OFF, _z80_halt;
  repeat lazymatch goal with
         | |- counted _ (bind (_TICK _) _) =>
             apply counted_after_TICK; intros ?
         | |- counted _ (bind (modify _) _) =>
             apply counted_after_silent; [apply counted_modify; keeps | intros ?]
         | |- counted _ (bind get _) =>
             apply counted_after_silent; [apply counted_get | intros ?]
         | |- counted _ (_TICK _) => apply counted_TICK
         | |- counted _ (modify _) => apply counted_modify; keeps
         | |- counted _ (ret _) => apply counted_ret
         end.

Lemma counted_fetch : counted 4 (_z80_fetch tick).
Proof. unfold _z80_fetch. counted_seq. Qed.

Lemma counted_read a : counted 3 (_z80_read tick a).
Proof. unfold _z80_read. counted_seq. Qed.

Lemma counted_write a d : counted 3 (_z80_write tick a d).
Proof. unfold _z80_write. counted_seq. Qed.

(** Whatever the opcode, the decoder adds at most one three-cycle bus
    transaction, through [_TICK] like every other cycle. *)
Lemma counted_op : counted 3 (_z80_op tick).
Proof.
  unfold _z80_op.
  apply counted_after_silent; [apply counted_get | intros c].
  cbv zeta.
  repeat match goal with
         | |- counted _ (if ?b then _ else _) => destruct b
         end;
    try (apply (counted_weaken 0); [lia | counted_seq; fail]);
    unfold _READ, _WRITE.
  - apply counted_write.
  - apply (counted_bind 3 0); [apply counted_read | intros ?; counted_seq].
  - apply counted_after_silent; [apply counted_get | intros c'].
    apply counted_after_silent; [apply counted_modify; keeps | intros ?].
    apply (counted_bind 3 0); [apply counted_read | intros ?; counted_seq].
Qed.

Lemma counted_fetch_op : counted 7 (bind (_z80_fetch tick) (fun _ => _z80_op tick)).
Proof.
  apply (counted_bind 4 3); [apply counted_fetch | intros _; apply counted_op].
Qed.

(** C7. For every CPU state and every tick callback that leaves the
    core's cycle counter [ticks] alone, the value [z80_step] returns is
    the number of times it invoked the callback. *)
Theorem step_cycles_are_ticks s :
  exists new,
    log (exec (z80_step tick) s) = log s ++ new /\
    eval (z80_step tick) s = Z.of_nat (length new).
Proof.
  rewrite eval_step, exec_step, after_step_fetch.
  destruct (counted_fetch_op {| cpu := set_ticks (cpu s) 0; log := log s |})
    as (new & Hn & E & Et).
  exists new. split; [exact E |].
  rewrite Et. apply iter_bump_small, Hn.
Qed.

End Counting.

(** *** A machine cycle under the pin protocol *)

(** What one [_TICK] leaves behind when the callback keeps to the pins. *)
Lemma TICK_exec (c : z80 Ctx) (l : list pins) :
  pins_only tick ->
  exists ctrl addr data ctx,
    _TICK tick {| cpu := c; log := l |}
    = (tt, {| cpu := drive (set_ticks c (bump (ticks c))) ctrl addr data ctx;
              log := l ++ [pins_of c] |}).
Proof.
  intros Hp.
  exists (CTRL (tick c)), (ADDR (tick c)), (DATA (tick c)), (context (tick c)).
  unfold _TICK. cbn [cpu log]. rewrite (Hp c) at 1 2.
  destruct c. reflexivity.
Qed.

Lemma TICK_bind {U} (k : unit -> M Ctx U) (c : z80 Ctx) (l : list pins) :
  pins_only tick ->
  exists ctrl addr data ctx,
    bind (_TICK tick) k {| cpu := c; log := l |}
    = k tt {| cpu := drive (set_ticks c (bump (ticks c))) ctrl addr data ctx;
              log := l ++ [pins_of c] |}.
Proof.
  intros Hp. destruct (TICK_exec c l Hp) as (ctrl & addr & data & ctx & E).
  exists ctrl, addr, data, ctx. unfold bind at 1. rewrite E. reflexivity.
Qed.

(** Execute the [_TICK] at the head of the program, naming the pins and
    the context the callback hands back. *)
Ltac tick_step Hp :=
  match goal with
  | |- context [bind (_TICK tick) ?k {| cpu := ?c; log := ?l |}] =>
      let ctrl := fresh "ctrl" in
      let addr := fresh "addr" in
      let data := fresh "data" in
      let ctx := fresh "ctx" in
      let E := fresh "E" in
      destruct (TICK_bind k c l Hp) as (ctrl & addr & data & ctx & E);
      rewrite E; clear E; flatten; run
  end.

(** The M1 cycle: [PC] moves on, the low seven bits of [R] count, four
    cycles are charged, and the callback has had the pins four times. *)
Lemma fetch_exec s :
  pins_only tick ->
  exists ctrl addr data ctx p1 p2 p3 p4,
    _z80_fetch tick s
    = (tt,
       {| cpu :=
            drive
              (set_ticks
                 (set_R (set_PC (cpu s) (u16 (PC (cpu s) + 1)))
                    (u8 (Z.lor (Z.land (R (cpu s)) 0x80)
                               (Z.land (R (cpu s) + 1) 0x7F))))
                 (bump (bump (bump (bump (ticks (cpu s)))))))
              ctrl addr data ctx;
          log := log s ++ [p1; p2; p3; p4] |}).
Proof.
  intros Hp. destruct s as [c l]. destruct c.
  unfold _z80_fetch. flatten. run.
  tick_step Hp. tick_step Hp. tick_step Hp. tick_step Hp.
  unfold _OFF, modify. flatten.
  do 8 eexists. reflexivity.
Qed.

(** The first half of [z80_step]: the counter restarts, so the M1 cycle
    leaves it at four. *)
Lemma step_fetch_exec s :
  pins_only tick ->
  exists ctrl addr data ctx p1 p2 p3 p4,
    exec (step_fetch tick) s
    = {| cpu :=
           drive
             (set_ticks
                (set_R (set_PC (cpu s) (u16 (PC (cpu s) + 1)))
                   (u8 (Z.lor (Z.land (R (cpu s)) 0x80)
                              (Z.land (R (cpu s) + 1) 0x7F))))
                4)
             ctrl addr data ctx;
         log := log s ++ [p1; p2; p3; p4] |}.
Proof.
  intros Hp.
  destruct (fetch_exec {| cpu := set_ticks (cpu s) 0; log := log s |} Hp)
    as (ctrl & addr & data & ctx & p1 & p2 & p3 & p4 & E).
  exists ctrl, addr, data, ctx, p1, p2, p3, p4.
  unfold step_fetch. rewrite exec_bind.
  change (exec (modify (fun c : z80 Ctx => set_ticks c 0)) s)
    with {| cpu := set_ticks (cpu s) 0; log := log s |}.
  unfold exec at 1. rewrite E. cbn [snd cpu log].
  destruct s as [c l]. destruct c. reflexivity.
Qed.

(** The stored refresh value is already a byte. *)
Lemma refresh_byte r :
  u8 (Z.lor (Z.land r 0x80) (Z.land (r + 1) 0x7F))
  = Z.lor (Z.land r 0x80) (Z.land (r + 1) 0x7F).
Proof.
  rewrite u8_land, land_lor, !land_land. reflexivity.
Qed.

(** *** The step on three opcodes *)

(** C4. For every CPU state whose fetched opcode byte is [0x00] (with a
    callback that keeps to the pins), one [z80_step] returns 4 cycles
    and four callback invocations, advances [PC] by one, counts the low
    seven bits of [R] up by one while keeping its bit 7 (so [R] becomes
    [R + 1] unless those seven bits are all ones), and leaves [A], [F],
    [B], [C], [D], [E], [H], [L], the alternate bank, [IX], [IY], [I],
    [SP], [WZ] and the interrupt state as they were. *)
Theorem nop_step s :
  pins_only tick -> opcode_of tick s = 0x00 ->
  eval (z80_step tick) s = 4 /\
  PC (cpu (exec (z80_step tick) s)) = u16 (PC (cpu s) + 1) /\
  R (cpu (exec (z80_step tick) s))
    = Z.lor (Z.land (R (cpu s)) 0x80) (Z.land (R (cpu s) + 1) 0x7F) /\
  (is_u8 (R (cpu s)) -> Z.land (R (cpu s)) 0x7F <> 0x7F ->
   R (cpu (exec (z80_step tick) s)) = R (cpu s) + 1) /\
  nop_frame (cpu (exec (z80_step tick) s)) = nop_frame (cpu s) /\
  exists p1 p2 p3 p4, log (exec (z80_step tick) s) = log s ++ [p1; p2; p3; p4].
Proof.
  intros Hp Hop.
  destruct (step_fetch_exec s Hp)
    as (ctrl & addr & data & ctx & p1 & p2 & p3 & p4 & E).
  unfold opcode_of in Hop. rewrite E in Hop.
  cbn [cpu DATA drive set_context set_DATA] in Hop. subst data.
  rewrite eval_step, exec_step, E. unfold exec at 1 2 3 4 5 6.
  rewrite op_nop by reflexivity. cbn [snd].
  destruct s as [c l]. destruct c. flatten. unfold nop_frame. flatten.
  rewrite refresh_byte.
  repeat split; try reflexivity.
  - intros Hr Hl. apply (refresh_update_cases _ Hr). exact Hl.
  - exists p1, p2, p3, p4. reflexivity.
Qed.

(** C8. For every CPU state whose fetched opcode byte is [0x41],
    [LD B,C], the decoder stores the value of [C] into [B] (index 0
    flipped to [r8[1]], index 1 flipped to [r8[0]]) and leaves [C] as it
    was, and the callback is invoked for the four cycles of the opcode
    fetch and for nothing else.  With a callback that keeps to the pins
    the value stored is the one [C] had before the step, and the step
    returns 4 cycles. *)
Theorem ld_b_c_step s :
  opcode_of tick s = 0x41 ->
  B (cpu (exec (z80_step tick) s)) = C (cpu (exec (step_fetch tick) s)) /\
  C (cpu (exec (z80_step tick) s)) = C (cpu (exec (step_fetch tick) s)) /\
  log (exec (z80_step tick) s) = log (exec (step_fetch tick) s) /\
  (exists p1 p2 p3 p4,
      log (exec (z80_step tick) s) = log s ++ [p1; p2; p3; p4]) /\
  (pins_only tick ->
   B (cpu (exec (z80_step tick) s)) = C (cpu s) /\
   C (cpu (exec (z80_step tick) s)) = C (cpu s) /\
   eval (z80_step tick) s = 4).
Proof.
  intros Hop. unfold opcode_of in Hop.
  rewrite eval_step, exec_step.
  destruct (emits_step_fetch s) as (new & Hn & E).
  assert (Hpins : pins_only tick ->
                  C (cpu (exec (step_fetch tick) s)) = C (cpu s) /\
                  ticks (cpu (exec (step_fetch tick) s)) = 4).
  { intros Hp.
    destruct (step_fetch_exec s Hp)
      as (ctrl & addr & data & ctx & p1 & p2 & p3 & p4 & E1).
    rewrite E1. destruct s as [c l]. destruct c. flatten.
    split; reflexivity. }
  revert Hop E Hpins. generalize (exec (step_fetch tick) s).
  intros s1 Hop E Hpins.
  unfold exec. rewrite op_ld_b_c by exact Hop.
  cbn [snd cpu log]. destruct s1 as [c1 l1]. destruct c1.
  cbn [cpu log B C ticks set_B] in *.
  split; [reflexivity |]. split; [reflexivity |]. split; [reflexivity |].
  split.
  - rewrite E.
    destruct new as [| p1 [| p2 [| p3 [| p4 [| p5 new]]]]]; try discriminate Hn.
    exists p1, p2, p3, p4. reflexivity.
  - intros Hp. destruct (Hpins Hp) as [Hc Ht].
    split; [exact Hc |]. split; [exact Hc | exact Ht].
Qed.

(** On opcode [0x76] the decoder takes the HALT branch and not the
    [LD (HL),r] one: the step is the opcode fetch followed by
    [_z80_halt], and the callback is invoked for the four cycles of the
    fetch only. *)
Lemma halt_decoded s :
  opcode_of tick s = 0x76 ->
  _z80_op tick (exec (step_fetch tick) s) = _z80_halt (exec (step_fetch tick) s) /\
  exec (z80_step tick) s = exec _z80_halt (exec (step_fetch tick) s) /\
  log (exec (z80_step tick) s) = log (exec (step_fetch tick) s) /\
  exists p1 p2 p3 p4, log (exec (z80_step tick) s) = log s ++ [p1; p2; p3; p4].
Proof.
  intros Hop. unfold opcode_of in Hop.
  rewrite exec_step.
  destruct (emits_step_fetch s) as (new & Hn & E).
  revert Hop E. generalize (exec (step_fetch tick) s). intros s1 Hop E.
  assert (Hh : _z80_op tick s1 = _z80_halt s1) by (apply op_halt; exact Hop).
  assert (Hs : exec (_z80_op tick) s1 = s1)
    by (unfold exec; rewrite Hh; reflexivity).
  rewrite exec_halt, Hs.
  repeat split; try assumption.
  rewrite E.
  destruct new as [| p1 [| p2 [| p3 [| p4 [| p5 new]]]]]; try discriminate Hn.
  exists p1, p2, p3, p4. reflexivity.
Qed.

(** By contrast the neighbouring opcode [0x70], [LD (HL),B], does run a
    write cycle: seven invocations, the last three with [HL] on the
    address pins. *)
Lemma op_ld_hl_b s :
  DATA (cpu s) = 0x70 ->
  _z80_op tick s = _z80_write tick (HL (cpu s)) (B (cpu s)) s.
Proof.
  intros Hop. unfold _z80_op. cbn [bind get]. rewrite Hop. reflexivity.
Qed.

Lemma ld_hl_b_step s :
  opcode_of tick s = 0x70 ->
  exists new, length new = 7%nat /\ log (exec (z80_step tick) s) = log s ++ new.
Proof.
  intros Hop. unfold opcode_of in Hop. rewrite exec_step.
  destruct (emits_step_fetch s) as (l1 & Hn1 & E1).
  revert Hop E1. generalize (exec (step_fetch tick) s). intros s1 Hop E1.
  destruct (emits_write (HL (cpu s1)) (B (cpu s1)) s1) as (l2 & Hn2 & E2).
  unfold exec in *. rewrite op_ld_hl_b by exact Hop. rewrite E2, E1.
  exists (l1 ++ l2). split.
  - rewrite length_app. lia.
  - symmetry. apply app_assoc.
Qed.

(** *** The run loop *)

(** C3. [z80_run] is a stub: for every state and every budget [t] it
    returns 0, runs no instruction and invokes no callback, so for
    [t > 0] the count it returns is below the budget. *)
Theorem z80_run_is_stub (t : Z) s :
  z80_run t s = (0, s) /\
  eval (z80_run t) s = 0 /\
  log (exec (z80_run t) s) = log s.
Proof. repeat split; reflexivity. Qed.

End Machine.

(** ** Concrete runs *)

(** The RAM host keeps to the pins. *)
Lemma ram_tick_pins_only : pins_only ram_tick.
Proof.
  intros c. unfold ram_tick.
  destruct (z80_all c _); [destruct c; reflexivity |].
  destruct (z80_all c _); destruct c; reflexivity.
Qed.

Lemma ram_tick_keeps_ticks : keeps_ticks ram_tick.
Proof.
  intros c. unfold ram_tick.
  destruct (z80_all c _); [reflexivity |].
  destruct (z80_all c _); reflexivity.
Qed.

(** A NOP from power-on. *)
Lemma nop_step_witness :
  pins_only ram_tick /\ opcode_of ram_tick (boot (filled 0x00)) = 0x00 /\
  eval (z80_step ram_tick) (boot (filled 0x00)) = 4 /\
  PC (cpu (exec (z80_step ram_tick) (boot (filled 0x00))))
    = u16 (PC (cpu (boot (filled 0x00))) + 1) /\
  R (cpu (exec (z80_step ram_tick) (boot (filled 0x00))))
    = Z.lor (Z.land (R (cpu (boot (filled 0x00)))) 0x80)
            (Z.land (R (cpu (boot (filled 0x00))) + 1) 0x7F) /\
  (is_u8 (R (cpu (boot (filled 0x00)))) ->
   Z.land (R (cpu (boot (filled 0x00)))) 0x7F <> 0x7F ->
   R (cpu (exec (z80_step ram_tick) (boot (filled 0x00))))
     = R (cpu (boot (filled 0x00))) + 1) /\
  nop_frame (cpu (exec (z80_step ram_tick) (boot (filled 0x00))))
    = nop_frame (cpu (boot (filled 0x00))) /\
  exists p1 p2 p3 p4,
    log (exec (z80_step ram_tick) (boot (filled 0x00)))
      = log (boot (filled 0x00)) ++ [p1; p2; p3; p4].
Proof.
  assert (Hp := ram_tick_pins_only).
  assert (Hop : opcode_of ram_tick (boot (filled 0x00)) = 0x00) by reflexivity.
  split; [exact Hp |]. split; [exact Hop |].
  exact (nop_step ram_tick (boot (filled 0x00)) Hp Hop).
Defined.

Example nop_demo :
  let s' := exec (z80_step ram_tick) (boot (filled 0x00)) in
  (eval (z80_step ram_tick) (boot (filled 0x00)), PC (cpu s'), R (cpu s'))
  = (4, 1, 1).
Proof. reflexivity. Qed.

(** A plain increment would take [R] from [0x7F] to [0x80]; the fetch
    takes it to [0x00]. *)
Lemma nop_step_refresh_wraps :
  pins_only ram_tick /\ opcode_of ram_tick boot_r7f = 0x00 /\
  R (cpu boot_r7f) = 0x7F /\
  R (cpu (exec (z80_step ram_tick) boot_r7f)) = 0x00 /\
  R (cpu (exec (z80_step ram_tick) boot_r7f)) <> (R (cpu boot_r7f) + 1) mod 256.
Proof.
  split; [exact ram_tick_pins_only |].
  repeat split; try reflexivity.
  vm_compute. discriminate.
Qed.

(** [LD B,C] from power-on with [C = 0x55]. *)
Lemma ld_b_c_step_witness :
  opcode_of ram_tick boot_ld_b_c = 0x41 /\
  B (cpu (exec (z80_step ram_tick) boot_ld_b_c))
    = C (cpu (exec (step_fetch ram_tick) boot_ld_b_c)) /\
  C (cpu (exec (z80_step ram_tick) boot_ld_b_c))
    = C (cpu (exec (step_fetch ram_tick) boot_ld_b_c)) /\
  log (exec (z80_step ram_tick) boot_ld_b_c)
    = log (exec (step_fetch ram_tick) boot_ld_b_c) /\
  (exists p1 p2 p3 p4,
      log (exec (z80_step ram_tick) boot_ld_b_c)
      = log boot_ld_b_c ++ [p1; p2; p3; p4]) /\
  (pins_only ram_tick ->
   B (cpu (exec (z80_step ram_tick) boot_ld_b_c)) = C (cpu boot_ld_b_c) /\
   C (cpu (exec (z80_step ram_tick) boot_ld_b_c)) = C (cpu boot_ld_b_c) /\
   eval (z80_step ram_tick) boot_ld_b_c = 4).
Proof.
  assert (Hop : opcode_of ram_tick boot_ld_b_c = 0x41) by reflexivity.
  split; [exact Hop |].
  exact (ld_b_c_step ram_tick boot_ld_b_c Hop).
Defined.

Example ld_b_c_demo :
  let s' := exec (z80_step ram_tick) boot_ld_b_c in
  (B (cpu boot_ld_b_c), C (cpu boot_ld_b_c), B (cpu s'), C (cpu s'),
   eval (z80_step ram_tick) boot_ld_b_c)
  = (0x00, 0x55, 0x55, 0x55, 4).
Proof. reflexivity. Qed.

(** HALT from power-on: four cycles, four invocations. *)
Example halt_demo :
  eval (z80_step ram_tick) (boot (filled 0x76)) = 4 /\
  length (log (exec (z80_step ram_tick) (boot (filled 0x76)))) = 4%nat.
Proof. split; reflexivity. Qed.

(** [LD (HL),B] from power-on: seven cycles, seven invocations. *)
Lemma step_cycles_are_ticks_witness :
  keeps_ticks ram_tick /\
  exists new,
    log (exec (z80_step ram_tick) (boot (filled 0x70)))
      = log (boot (filled 0x70)) ++ new /\
    eval (z80_step ram_tick) (boot (filled 0x70)) = Z.of_nat (length new).
Proof.
  split; [exact ram_tick_keeps_ticks |].
  exact (step_cycles_are_ticks ram_tick ram_tick_keeps_ticks (boot (filled 0x70))).
Defined.

Example ld_hl_b_demo :
  eval (z80_step ram_tick) (boot (filled 0x70)) = 7 /\
  length (log (exec (z80_step ram_tick) (boot (filled 0x70)))) = 7%nat.
Proof. split; reflexivity. Qed.

(** A callback that writes to [cpu->ticks] is outside the protocol, and
    the returned count then says nothing about the invocations. *)
Example rogue_tick_demo :
  let s := {| cpu := z80_init tt; log := [] |} in
  eval (z80_step rogue_tick) s = 1 /\
  length (log (exec (z80_step rogue_tick) s)) = 4%nat.
Proof. split; reflexivity. Qed.

(** Without the condition on the callback the count is wrong: from
    power-on, with the callback that clears [ticks], [z80_step] invokes
    it four times and returns 1. *)
Lemma step_cycles_rogue_callback :
  ~ keeps_ticks rogue_tick /\
  eval (z80_step rogue_tick) {| cpu := z80_init tt; log := [] |} = 1 /\
  (exists p1 p2 p3 p4,
      log (exec (z80_step rogue_tick) {| cpu := z80_init tt; log := [] |})
      = log {| cpu := z80_init tt; log := [] |} ++ [p1; p2; p3; p4]) /\
  ~ (exists new,
        log (exec (z80_step rogue_tick) {| cpu := z80_init tt; log := [] |})
        = log {| cpu := z80_init tt; log := [] |} ++ new /\
        eval (z80_step rogue_tick) {| cpu := z80_init tt; log := [] |}
        = Z.of_nat (length new)).
Proof.
  split.
  { intros Hk. specialize (Hk (set_ticks (z80_init tt) 1)).
    cbn in Hk. discriminate Hk. }
  split; [reflexivity |].
  split; [do 4 eexists; vm_compute; reflexivity |].
  intros (new & E & Hn).
  vm_compute in E. subst new. vm_compute in Hn. discriminate Hn.
Qed.

(** A budget of one cycle from power-on: nothing runs. *)
Example z80_run_demo :
  eval (z80_run 1) (boot (filled 0x00)) = 0 /\
  log (exec (z80_run 1) (boot (filled 0x00))) = [].
Proof. split; reflexivity. Qed.

(** ** The decoder, opcode by opcode *)

(** Case analysis on a three-bit index. *)
Ltac enum8 i :=
  let Hc := fresh "Hc" in
  assert (Hc : i = 0 \/ i = 1 \/ i = 2 \/ i = 3 \/ i = 4 \/ i = 5 \/ i = 6 \/ i = 7)
    by lia;
  repeat (destruct Hc as [-> | Hc]); [.. | subst i].

Section Decoder.

Context {Ctx : Type}.
Variable tick : z80 Ctx -> z80 Ctx.
Implicit Types s : machine Ctx.

(** [_z80_op] is its table. *)
Lemma op_decode s :
  _z80_op tick s = exec_instr tick (decode (DATA (cpu s))) s.
Proof.
  unfold _z80_op, decode. cbn [bind get]. cbv zeta.
  generalize (u8 (Z.shiftr (DATA (cpu s)) 6)),
             (u8 (Z.land (Z.shiftr (DATA (cpu s)) 3) 7)),
             (u8 (Z.land (DATA (cpu s)) 7)).
  intros x y z.
  destruct (Z.eqb_spec x 1) as [-> | Hx1];
    [| destruct (Z.eqb_spec x 0) as [-> | Hx0]];
    cbn [Z.eqb Pos.eqb];
    destruct (Z.eqb_spec z 6) as [-> | Hz];
    destruct (Z.eqb_spec y 6) as [-> | Hy];
    cbn [Z.eqb Pos.eqb];
    repeat match goal with
           | |- context [if ?b then _ else _] => destruct b
           end;
    reflexivity.
Qed.


(** *** The register file as an array *)

(** X13. Flipping bit 0 of a Z80 register code gives the [r8] index of
    the register it names: codes 0..5 reach [B, C, D, E, H, L] and code
    7 reaches [A]; the one index no register code but 6 (memory at [HL])
    would reach is that of [F]. *)
Theorem register_codes (c : z80 Ctx) (k : Z) :
  0 <= k < 8 -> k <> 6 ->
  reg_code c k = Some (r8 c (Z.lxor k 1)) /\
  0 <= Z.lxor k 1 < 7 /\
  r8 c (Z.lxor 6 1) = F c.
Proof.
  intros Hk H6.
  enum8 k; try (exfalso; apply H6; reflexivity);
    (split; [reflexivity | split; [cbn; lia | reflexivity]]).
Qed.

(** A store through a register code does not reach [F], nor anything
    outside the main bank. *)
Lemma set_r8_frame (c : z80 Ctx) (i v : Z) :
  i <> 7 ->
  step_frame (set_r8 c i v) = step_frame c /\
  PC (set_r8 c i v) = PC c /\ R (set_r8 c i v) = R c /\
  CTRL (set_r8 c i v) = CTRL c /\ ADDR (set_r8 c i v) = ADDR c /\
  DATA (set_r8 c i v) = DATA c /\ context (set_r8 c i v) = context c.
Proof.
  intros H7. unfold set_r8.
  repeat match goal with
         | |- context [if ?a =? ?b then _ else _] =>
             destruct (Z.eqb_spec a b)
         end;
    try (exfalso; apply H7; assumption);
    repeat split; reflexivity.
Qed.

(** *** What each opcode decodes to *)

Lemma decode_classes d : is_u8 d -> decode_class_ok d = true.
Proof. apply forall_bytes1. vm_compute. reflexivity. Qed.

(** A decoded destination or source is a register index, never [F]'s. *)
Lemma field3_range x : 0 <= u8 (Z.land x 7) < 8.
Proof.
  change 7 with (Z.ones 3). rewrite Z.land_ones by lia.
  change (2 ^ 3) with 8.
  pose proof (Z.mod_pos_bound x 8 ltac:(lia)) as Hm.
  rewrite u8_small by (unfold is_u8; lia). exact Hm.
Qed.

Lemma flip_index y : 0 <= y < 8 -> y <> 6 -> 0 <= Z.lxor y 1 < 8 /\ Z.lxor y 1 <> 7.
Proof.
  intros Hy H6.
  enum8 y; try (exfalso; apply H6; reflexivity); cbn; lia.
Qed.

Lemma decode_indices d :
  match decode d with
  | I_LD_HL_r i | I_LD_r_HL i | I_LD_r_n i => 0 <= i < 8 /\ i <> 7
  | I_LD_r_r i j => (0 <= i < 8 /\ i <> 7) /\ (0 <= j < 8 /\ j <> 7)
  | _ => True
  end.
Proof.
  unfold decode. cbv zeta.
  pose proof (field3_range (Z.shiftr d 3)) as Hy.
  pose proof (field3_range d) as Hz.
  revert Hy Hz.
  generalize (u8 (Z.shiftr d 6)), (u8 (Z.land (Z.shiftr d 3) 7)),
             (u8 (Z.land d 7)).
  intros x y z Hy Hz.
  destruct (x =? 1); [| destruct (x =? 0)];
    destruct (Z.eqb_spec y 6); destruct (Z.eqb_spec z 6);
    try exact Logic.I; try split; apply flip_index; assumption.
Qed.

Lemma ld_r_r_decode y z :
  0 <= y < 8 -> y <> 6 -> 0 <= z < 8 -> z <> 6 ->
  decode (0x40 + 8 * y + z) = I_LD_r_r (Z.lxor y 1) (Z.lxor z 1).
Proof.
  intros Hy Hy6 Hz Hz6.
  enum8 y; try (exfalso; apply Hy6; reflexivity);
    enum8 z; try (exfalso; apply Hz6; reflexivity); reflexivity.
Qed.

(** X14. Each of the 49 opcodes [0x40 + 8*y + z] with register codes
    [y] and [z] other than 6 is [LD r,r']: the decoder copies the
    register coded [z] into the register coded [y], leaves the other six
    registers, [F] and everything outside the main bank alone ([PC], [R],
    the alternate bank and the other registers of [step_frame], the
    cycle counter, the pins and the context), and invokes the callback
    not at all; with [y = z] it changes nothing. *)
Theorem ld_r_r_op s (y z : Z) :
  0 <= y < 8 -> y <> 6 -> 0 <= z < 8 -> z <> 6 ->
  DATA (cpu s) = 0x40 + 8 * y + z ->
  reg_code (cpu (exec (_z80_op tick) s)) y = reg_code (cpu s) z /\
  (forall k, 0 <= k < 8 -> k <> y ->
     reg_code (cpu (exec (_z80_op tick) s)) k = reg_code (cpu s) k) /\
  step_frame (cpu (exec (_z80_op tick) s)) = step_frame (cpu s) /\
  PC (cpu (exec (_z80_op tick) s)) = PC (cpu s) /\
  ticks (cpu (exec (_z80_op tick) s)) = ticks (cpu s) /\
  log (exec (_z80_op tick) s) = log s /\
  (y = z -> exec (_z80_op tick) s = s) /\
  R (cpu (exec (_z80_op tick) s)) = R (cpu s) /\
  pins_of (cpu (exec (_z80_op tick) s)) = pins_of (cpu s) /\
  context (cpu (exec (_z80_op tick) s)) = context (cpu s).
Proof.
  intros Hy Hy6 Hz Hz6 Hop.
  unfold exec. rewrite op_decode, Hop, ld_r_r_decode by assumption.
  cbn [exec_instr modify snd cpu log].
  destruct s as [c l]. destruct c. cbn [cpu log].
  enum8 y; try (exfalso; apply Hy6; reflexivity);
    enum8 z; try (exfalso; apply Hz6; reflexivity);
    (repeat apply conj;
     [ reflexivity
     | intros k Hk Hne; enum8 k; try (exfalso; apply Hne; reflexivity);
       reflexivity
     | reflexivity | reflexivity | reflexivity | reflexivity
     | intros Heq; first [discriminate Heq | reflexivity]
     | reflexivity | reflexivity | reflexivity ]).
Qed.

(** X15. Every opcode byte that is not one of the loads ([0x40..0x7F]
    but [0x76], and [0x06, 0x0E, ..., 0x3E] but [0x36]) is executed by
    the decoder as nothing at all: the state is returned as it was and
    the callback is not invoked.  That covers the whole ALU block
    [0x80..0xBF] and the block [0xC0..0xFF]. *)
Theorem unimplemented_op s :
  is_u8 (DATA (cpu s)) ->
  (load_opcode (DATA (cpu s)) = false -> _z80_op tick s = (tt, s)) /\
  (128 <= DATA (cpu s) -> _z80_op tick s = (tt, s)).
Proof.
  intros Hd.
  assert (Hnone : load_opcode (DATA (cpu s)) = false -> _z80_op tick s = (tt, s)).
  { intros Hl. rewrite op_decode.
    pose proof (decode_classes _ Hd) as Hc. unfold decode_class_ok in Hc.
    destruct (decode (DATA (cpu s))); try reflexivity;
      exfalso; revert Hc; unfold load_opcode in *;
      destruct (bus_opcode (DATA (cpu s)));
      rewrite ?orb_true_r, ?orb_false_r in Hl; rewrite ?Hl;
      cbn [andb negb]; try discriminate. }
  split; [exact Hnone |].
  intros Hge. apply Hnone. unfold load_opcode, bus_opcode.
  destruct (Z.ltb_spec (DATA (cpu s)) 128) as [Hlt | _]; [lia |].
  destruct (Z.ltb_spec (DATA (cpu s)) 64) as [Hlt | _]; [lia |].
  rewrite !andb_false_r. reflexivity.
Qed.

(** *** Invocations and cycles, by opcode *)

Lemma emits_ret_any {T} (x : T) : emits 0 (ret (Ctx := Ctx) x).
Proof. intros s. exists []. split; [reflexivity |]. symmetry. apply app_nil_r. Qed.

Lemma emits_get : emits 0 (get (Ctx := Ctx)).
Proof. intros s. exists []. split; [reflexivity |]. symmetry. apply app_nil_r. Qed.

Lemma emits_read_cycle a : emits 3 (_z80_read tick a).
Proof.
  unfold _z80_read, _ON, _OFF.
  repeat lazymatch goal with
         | |- emits _ (bind (modify _) _) =>
             apply emits_after_modify; intros _
         | |- emits _ (bind (_TICK _) _) => apply emits_after_TICK; intros _
         | |- emits _ (_TICK _) => apply emits_TICK
         end.
Qed.

Lemma emits_instr i : emits (instr_cycles i) (exec_instr tick i).
Proof.
  destruct i; cbn [instr_cycles exec_instr]; unfold _z80_halt, _READ, _WRITE.
  - apply emits_ret_any.
  - apply (emits_bind 0 3); [apply emits_get | intros c; apply emits_write].
  - apply (emits_bind 0 3); [apply emits_get | intros c].
    apply (emits_bind 3 0); [apply emits_read_cycle | intros _; apply emits_modify].
  - apply emits_modify.
  - apply (emits_bind 0 3); [apply emits_get | intros c].
    apply emits_after_modify. intros _.
    apply (emits_bind 3 0); [apply emits_read_cycle | intros _; apply emits_modify].
  - apply emits_ret_any.
Qed.

Lemma instr_cycles_bus d :
  is_u8 d -> instr_cycles (decode d) = if bus_opcode d then 3%nat else 0%nat.
Proof.
  intros Hd. pose proof (decode_classes d Hd) as Hc.
  unfold decode_class_ok, load_opcode in Hc.
  destruct (decode d); cbn [instr_cycles];
    destruct (bus_opcode d); try reflexivity;
    rewrite ?orb_true_r, ?andb_false_r in Hc; cbn [andb negb] in Hc;
    try discriminate Hc.
Qed.

(** X16. The cycle table of the implemented decoder: for every opcode
    byte, one [z80_step] invokes the callback seven times if the opcode
    is a load through memory ([LD r,(HL)], [LD (HL),r], [LD r,n]) and
    four times otherwise; with a callback that leaves [ticks] alone that
    number is the value returned. *)
Theorem step_cycle_table s :
  is_u8 (opcode_of tick s) ->
  (exists new,
      log (exec (z80_step tick) s) = log s ++ new /\
      length new = if bus_opcode (opcode_of tick s) then 7%nat else 4%nat) /\
  (keeps_ticks tick ->
   eval (z80_step tick) s = if bus_opcode (opcode_of tick s) then 7 else 4).
Proof.
  intros Hd.
  assert (Hlog : exists new,
             log (exec (z80_step tick) s) = log s ++ new /\
             length new = if bus_opcode (opcode_of tick s) then 7%nat else 4%nat).
  { rewrite exec_step. unfold opcode_of in *.
    destruct (emits_step_fetch tick s) as (l1 & Hn1 & E1).
    revert Hd E1. generalize (exec (step_fetch tick) s). intros s1 Hd E1.
    unfold exec at 1. rewrite op_decode.
    destruct (emits_instr (decode (DATA (cpu s1))) s1) as (l2 & Hn2 & E2).
    unfold exec in E2. rewrite E2, E1.
    exists (l1 ++ l2). split; [symmetry; apply app_assoc |].
    rewrite length_app, Hn1, Hn2, instr_cycles_bus by exact Hd.
    destruct (bus_opcode (DATA (cpu s1))); reflexivity. }
  split; [exact Hlog |].
  intros Hticks. destruct Hlog as (new & E & Hn).
  rewrite eval_step. revert E. rewrite exec_step, after_step_fetch. intros E.
  destruct (counted_fetch_op tick Hticks
              {| cpu := set_ticks (cpu s) 0; log := log s |})
    as (new' & Hb & E' & Et).
  cbn [log cpu ticks set_ticks] in E', Et.
  rewrite E' in E. apply app_inv_head in E. subst new'.
  rewrite Et, Hn.
  destruct (bus_opcode (opcode_of tick s)); reflexivity.
Qed.

End Decoder.

(** ** The loads through memory, under the pin protocol *)

Section Loads.

Context {Ctx : Type}.
Variable tick : z80 Ctx -> z80 Ctx.
Hypothesis Hp : pins_only tick.
Implicit Types s : machine Ctx.

Ltac flatten :=
  cbv beta iota delta
      [drive pins_of IR HL
       C B E D L H A F BC_ DE_ HL_ AF_ WZ WZ_ IX IY R I SP PC
       CTRL ADDR DATA im imm1 imm2 ticks context
       set_C set_B set_E set_D set_L set_H set_A set_F set_R set_PC
       set_CTRL set_ADDR set_DATA set_ticks set_context cpu log];
  rewrite <- ?app_assoc; cbn [app].

Ltac run :=
  cbn [bind ret get modify exec eval _ON _OFF _READ _WRITE fst snd];
  flatten.

Ltac tick_step :=
  match goal with
  | |- context [bind (_TICK tick) ?k {| cpu := ?c; log := ?l |}] =>
      let ctrl := fresh "ctrl" in
      let addr := fresh "addr" in
      let data := fresh "data" in
      let ctx := fresh "ctx" in
      let E := fresh "E" in
      destruct (TICK_bind tick k c l Hp) as (ctrl & addr & data & ctx & E);
      rewrite E; clear E; flatten; run
  | |- context [_TICK tick {| cpu := ?c; log := ?l |}] =>
      let ctrl := fresh "ctrl" in
      let addr := fresh "addr" in
      let data := fresh "data" in
      let ctx := fresh "ctx" in
      let E := fresh "E" in
      destruct (TICK_exec tick c l Hp) as (ctrl & addr & data & ctx & E);
      rewrite E; clear E; flatten
  end.

(** A read cycle and a write cycle, with what the callback is shown. *)
Lemma read_cycle_exec (a : Z) (c : z80 Ctx) (l : list pins) :
  exists ctrl addr data ctx ctrl1 addr1 data1 p3,
    _z80_read tick a {| cpu := c; log := l |}
    = (tt,
       {| cpu := drive (set_ticks c (bump (bump (bump (ticks c)))))
                       ctrl addr data ctx;
          log := l ++ [(CTRL c, u16 a, DATA c);
                       (u16 (Z.lor ctrl1 (Z.lor Z80_MREQ Z80_RD)), addr1, data1);
                       p3] |}).
Proof.
  destruct c. unfold _z80_read. flatten. run.
  tick_step. tick_step. tick_step.
  do 8 eexists. reflexivity.
Qed.

Lemma write_cycle_exec (a d : Z) (c : z80 Ctx) (l : list pins) :
  exists ctrl addr data ctx ctrl1 addr1 p3,
    _z80_write tick a d {| cpu := c; log := l |}
    = (tt,
       {| cpu := drive (set_ticks c (bump (bump (bump (ticks c)))))
                       ctrl addr data ctx;
          log := l ++ [(CTRL c, u16 a, DATA c);
                       (u16 (Z.lor ctrl1 (Z.lor Z80_MREQ Z80_WR)), addr1, u8 d);
                       p3] |}).
Proof.
  destruct c. unfold _z80_write. flatten. run.
  tick_step. tick_step. tick_step.
  do 7 eexists. reflexivity.
Qed.

Lemma exec_ld_r_hl (dst : Z) (c : z80 Ctx) (l : list pins) :
  exists ctrl addr data ctx ctrl1 addr1 data1 p3,
    exec_instr tick (I_LD_r_HL dst) {| cpu := c; log := l |}
    = (tt,
       {| cpu := set_r8 (drive (set_ticks c (bump (bump (bump (ticks c)))))
                               ctrl addr data ctx) dst data;
          log := l ++ [(CTRL c, u16 (HL c), DATA c);
                       (u16 (Z.lor ctrl1 (Z.lor Z80_MREQ Z80_RD)), addr1, data1);
                       p3] |}).
Proof.
  destruct (read_cycle_exec (HL c) c l)
    as (ctrl & addr & data & ctx & ctrl1 & addr1 & data1 & p3 & E).
  exists ctrl, addr, data, ctx, ctrl1, addr1, data1, p3.
  cbn [exec_instr]. unfold bind, get, _READ. cbn [cpu]. rewrite E.
  unfold modify. cbn [cpu log DATA drive set_context set_DATA].
  reflexivity.
Qed.

Lemma exec_ld_r_n (dst : Z) (c : z80 Ctx) (l : list pins) :
  exists ctrl addr data ctx ctrl1 addr1 data1 p3,
    exec_instr tick (I_LD_r_n dst) {| cpu := c; log := l |}
    = (tt,
       {| cpu := set_r8 (drive (set_ticks (set_PC c (u16 (PC c + 1)))
                                          (bump (bump (bump (ticks c)))))
                               ctrl addr data ctx) dst data;
          log := l ++ [(CTRL c, u16 (PC c), DATA c);
                       (u16 (Z.lor ctrl1 (Z.lor Z80_MREQ Z80_RD)), addr1, data1);
                       p3] |}).
Proof.
  destruct (read_cycle_exec (PC c) (set_PC c (u16 (PC c + 1))) l)
    as (ctrl & addr & data & ctx & ctrl1 & addr1 & data1 & p3 & E).
  exists ctrl, addr, data, ctx, ctrl1, addr1, data1, p3.
  cbn [exec_instr]. unfold bind, get, _READ, modify at 1. cbn [cpu log].
  rewrite E.
  unfold modify. cbn [cpu log DATA drive set_context set_DATA].
  destruct c. reflexivity.
Qed.

Lemma exec_ld_hl_r (src : Z) (c : z80 Ctx) (l : list pins) :
  exists ctrl addr data ctx ctrl1 addr1 p3,
    exec_instr tick (I_LD_HL_r src) {| cpu := c; log := l |}
    = (tt,
       {| cpu := drive (set_ticks c (bump (bump (bump (ticks c)))))
                       ctrl addr data ctx;
          log := l ++ [(CTRL c, u16 (HL c), DATA c);
                       (u16 (Z.lor ctrl1 (Z.lor Z80_MREQ Z80_WR)), addr1,
                        u8 (r8 c src));
                       p3] |}).
Proof.
  destruct (write_cycle_exec (HL c) (r8 c src) c l)
    as (ctrl & addr & data & ctx & ctrl1 & addr1 & p3 & E).
  exists ctrl, addr, data, ctx, ctrl1, addr1, p3.
  cbn [exec_instr]. unfold bind, get, _WRITE. cbn [cpu]. rewrite E.
  reflexivity.
Qed.

Lemma load_decodes y :
  0 <= y < 8 -> y <> 6 ->
  decode (0x46 + 8 * y) = I_LD_r_HL (Z.lxor y 1) /\
  decode (0x70 + y) = I_LD_HL_r (Z.lxor y 1) /\
  decode (0x06 + 8 * y) = I_LD_r_n (Z.lxor y 1).
Proof.
  intros Hy H6.
  assert (Hc : y = 0 \/ y = 1 \/ y = 2 \/ y = 3 \/ y = 4 \/ y = 5 \/ y = 7) by lia.
  repeat (destruct Hc as [-> | Hc]); try subst y; repeat split; reflexivity.
Qed.

(** The state [_z80_op] starts from, as [step_fetch] leaves it. *)
Lemma after_fetch s :
  exists ctrl addr ctx p1 p2 p3 p4,
    exec (step_fetch tick) s
    = {| cpu :=
           drive
             (set_ticks
                (set_R (set_PC (cpu s) (u16 (PC (cpu s) + 1)))
                   (u8 (Z.lor (Z.land (R (cpu s)) 0x80)
                              (Z.land (R (cpu s) + 1) 0x7F))))
                4)
             ctrl addr (opcode_of tick s) ctx;
         log := log s ++ [p1; p2; p3; p4] |}.
Proof.
  destruct (step_fetch_exec tick s Hp)
    as (ctrl & addr & data & ctx & p1 & p2 & p3 & p4 & E).
  exists ctrl, addr, ctx, p1, p2, p3, p4.
  unfold opcode_of. rewrite E at 2.
  cbn [cpu DATA drive set_context set_DATA]. exact E.
Qed.

(** Evaluation of register-file accesses at a known index. *)
Ltac regs :=
  cbv beta iota delta
      [set_r8 r8 reg_code step_frame nop_frame pin_ctrl pin_addr pin_data
       fst snd Z.lxor Z.eqb Pos.eqb Pos.lxor Pos.succ Pos.pred_double
       Pos.add Pos.mul Z.add Z.mul Z.pos_sub Pos.compare Pos.compare_cont
       Z.opp Z.double Z.succ_double Z.pred_double
       C B E D L H A F BC_ DE_ HL_ AF_ WZ WZ_ IX IY R I SP PC
       CTRL ADDR DATA im imm1 imm2 ticks context
       set_C set_B set_E set_D set_L set_H set_A set_F].

Ltac enum7 y Hy H6 :=
  let Hc := fresh "Hc" in
  assert (Hc : y = 0 \/ y = 1 \/ y = 2 \/ y = 3 \/ y = 4 \/ y = 5 \/ y = 7)
    by lia;
  clear Hy H6;
  repeat (destruct Hc as [-> | Hc]); [.. | subst y].

(** X17. [LD r,(HL)], opcodes [0x46 + 8*y] with [y] a register code:
    the step takes 7 cycles, the first cycle after the opcode fetch puts
    [HL] on the address pins and the next raises MREQ and RD, the
    register coded [y] ends up holding the byte left on the data pins,
    and no other register but [PC] and [R] changes. *)
Theorem ld_r_hl_step s (y : Z) :
  0 <= y < 8 -> y <> 6 -> opcode_of tick s = 0x46 + 8 * y ->
  eval (z80_step tick) s = 7 /\
  reg_code (cpu (exec (z80_step tick) s)) y
    = Some (DATA (cpu (exec (z80_step tick) s))) /\
  (forall k, 0 <= k < 8 -> k <> y ->
     reg_code (cpu (exec (z80_step tick) s)) k = reg_code (cpu s) k) /\
  step_frame (cpu (exec (z80_step tick) s)) = step_frame (cpu s) /\
  PC (cpu (exec (z80_step tick) s)) = u16 (PC (cpu s) + 1) /\
  exists p1 p2 p3 p4 p5 p6 p7,
    log (exec (z80_step tick) s) = log s ++ [p1; p2; p3; p4; p5; p6; p7] /\
    pin_addr p5 = u16 (HL (cpu s)) /\
    Z.land (pin_ctrl p6) (Z.lor Z80_MREQ Z80_RD) = Z.lor Z80_MREQ Z80_RD.
Proof.
  intros Hy H6 Hop.
  destruct (after_fetch s) as (ctrl & addr & ctx & p1 & p2 & p3 & p4 & E1).
  rewrite Hop in E1.
  rewrite eval_step, exec_step, E1.
  unfold exec. rewrite op_decode. cbn [cpu DATA drive set_context set_DATA].
  destruct (load_decodes y Hy H6) as (-> & _ & _).
  match goal with
  | |- context [exec_instr tick _ {| cpu := ?c; log := ?l |}] =>
      destruct (exec_ld_r_hl (Z.lxor y 1) c l)
        as (ctrl' & addr' & data' & ctx' & ctrl1 & addr1 & data1 & p7 & E2)
  end.
  rewrite E2. cbn [snd cpu log].
  destruct s as [c l]. destruct c. flatten.
  enum7 y Hy H6; regs;
    (repeat apply conj;
     [ reflexivity | reflexivity
     | intros k Hk Hne; enum8 k; try (exfalso; apply Hne; reflexivity);
       reflexivity
     | reflexivity | reflexivity
     | do 7 eexists; split; [reflexivity |];
       split; [reflexivity | apply u16_lor_on; unfold is_u16; cbn; lia] ]).
Qed.

(** X18. [LD r,n], opcodes [0x06 + 8*y] with [y] a register code: the
    step takes 7 cycles, reads at the address after the opcode and
    moves [PC] past it (two on from where it was), the register coded
    [y] ends up holding the byte left on the data pins, and no other
    register but [PC] and [R] changes. *)
Theorem ld_r_n_step s (y : Z) :
  0 <= y < 8 -> y <> 6 -> opcode_of tick s = 0x06 + 8 * y ->
  eval (z80_step tick) s = 7 /\
  reg_code (cpu (exec (z80_step tick) s)) y
    = Some (DATA (cpu (exec (z80_step tick) s))) /\
  (forall k, 0 <= k < 8 -> k <> y ->
     reg_code (cpu (exec (z80_step tick) s)) k = reg_code (cpu s) k) /\
  step_frame (cpu (exec (z80_step tick) s)) = step_frame (cpu s) /\
  PC (cpu (exec (z80_step tick) s)) = u16 (u16 (PC (cpu s) + 1) + 1) /\
  exists p1 p2 p3 p4 p5 p6 p7,
    log (exec (z80_step tick) s) = log s ++ [p1; p2; p3; p4; p5; p6; p7] /\
    pin_addr p5 = u16 (PC (cpu s) + 1) /\
    Z.land (pin_ctrl p6) (Z.lor Z80_MREQ Z80_RD) = Z.lor Z80_MREQ Z80_RD.
Proof.
  intros Hy H6 Hop.
  destruct (after_fetch s) as (ctrl & addr & ctx & p1 & p2 & p3 & p4 & E1).
  rewrite Hop in E1.
  rewrite eval_step, exec_step, E1.
  unfold exec. rewrite op_decode. cbn [cpu DATA drive set_context set_DATA].
  destruct (load_decodes y Hy H6) as (_ & _ & ->).
  match goal with
  | |- context [exec_instr tick _ {| cpu := ?c; log := ?l |}] =>
      destruct (exec_ld_r_n (Z.lxor y 1) c l)
        as (ctrl' & addr' & data' & ctx' & ctrl1 & addr1 & data1 & p7 & E2)
  end.
  rewrite E2. cbn [snd cpu log].
  destruct s as [c l]. destruct c. flatten.
  enum7 y Hy H6; regs;
    (repeat apply conj;
     [ reflexivity | reflexivity
     | intros k Hk Hne; enum8 k; try (exfalso; apply Hne; reflexivity);
       reflexivity
     | reflexivity | reflexivity
     | do 7 eexists; split; [reflexivity |];
       split; [apply M6502_Spec.u16_idem
              | apply u16_lor_on; unfold is_u16; cbn; lia] ]).
Qed.

(** X19. [LD (HL),r], opcodes [0x70 + z] with [z] a register code: the
    step takes 7 cycles; the first cycle after the opcode fetch puts
    [HL] on the address pins, the next raises MREQ and WR with the value
    of the register coded [z] on the data pins; no register but [PC] and
    [R] changes. *)
Theorem ld_hl_r_step s (z : Z) :
  0 <= z < 8 -> z <> 6 -> opcode_of tick s = 0x70 + z ->
  eval (z80_step tick) s = 7 /\
  nop_frame (cpu (exec (z80_step tick) s)) = nop_frame (cpu s) /\
  PC (cpu (exec (z80_step tick) s)) = u16 (PC (cpu s) + 1) /\
  exists p1 p2 p3 p4 p5 p6 p7,
    log (exec (z80_step tick) s) = log s ++ [p1; p2; p3; p4; p5; p6; p7] /\
    pin_addr p5 = u16 (HL (cpu s)) /\
    Z.land (pin_ctrl p6) (Z.lor Z80_MREQ Z80_WR) = Z.lor Z80_MREQ Z80_WR /\
    exists v, reg_code (cpu s) z = Some v /\ pin_data p6 = u8 v.
Proof.
  intros Hz H6 Hop.
  destruct (after_fetch s) as (ctrl & addr & ctx & p1 & p2 & p3 & p4 & E1).
  rewrite Hop in E1.
  rewrite eval_step, exec_step, E1.
  unfold exec. rewrite op_decode. cbn [cpu DATA drive set_context set_DATA].
  destruct (load_decodes z Hz H6) as (_ & -> & _).
  match goal with
  | |- context [exec_instr tick _ {| cpu := ?c; log := ?l |}] =>
      destruct (exec_ld_hl_r (Z.lxor z 1) c l)
        as (ctrl' & addr' & data' & ctx' & ctrl1 & addr1 & p7 & E2)
  end.
  rewrite E2. cbn [snd cpu log].
  destruct s as [c l]. destruct c. flatten.
  enum7 z Hz H6; regs;
    (repeat apply conj;
     [ reflexivity | reflexivity | reflexivity
     | do 7 eexists; split; [reflexivity |];
       split; [reflexivity |];
       split; [apply u16_lor_on; unfold is_u16; cbn; lia |];
       eexists; split; reflexivity ]).
Qed.

(** X20. Whatever the opcode, with a callback that keeps to the pins
    one [z80_step] never touches [F], the alternate bank, [IX], [IY],
    [I], [SP], [WZ] or the interrupt state; it counts the low seven bits
    of [R] up by one and keeps bit 7 of [R]; and it moves [PC] on by one
    or (the [LD r,n] case) by two. *)
Theorem step_any_opcode s :
  step_frame (cpu (exec (z80_step tick) s)) = step_frame (cpu s) /\
  R (cpu (exec (z80_step tick) s))
    = Z.lor (Z.land (R (cpu s)) 0x80) (Z.land (R (cpu s) + 1) 0x7F) /\
  (PC (cpu (exec (z80_step tick) s)) = u16 (PC (cpu s) + 1) \/
   PC (cpu (exec (z80_step tick) s)) = u16 (u16 (PC (cpu s) + 1) + 1)).
Proof.
  destruct (after_fetch s) as (ctrl & addr & ctx & p1 & p2 & p3 & p4 & E1).
  rewrite exec_step, E1.
  unfold exec. rewrite op_decode. cbn [cpu DATA drive set_context set_DATA].
  pose proof (decode_indices (opcode_of tick s)) as Hi.
  destruct (decode (opcode_of tick s)) as [| src | dst | dst src | dst |].
  - cbn [exec_instr _z80_halt ret snd cpu].
    destruct s as [c l]. destruct c. flatten. unfold step_frame. flatten.
    rewrite refresh_byte. repeat split. left. reflexivity.
  - match goal with
    | |- context [exec_instr tick _ {| cpu := ?c; log := ?l |}] =>
        destruct (exec_ld_hl_r src c l)
          as (ctrl' & addr' & data' & ctx' & ctrl1 & addr1 & p7 & E2)
    end.
    rewrite E2. cbn [snd cpu].
    destruct s as [c l]. destruct c. flatten. unfold step_frame. flatten.
    rewrite refresh_byte. repeat split. left. reflexivity.
  - match goal with
    | |- context [exec_instr tick _ {| cpu := ?c; log := ?l |}] =>
        destruct (exec_ld_r_hl dst c l)
          as (ctrl' & addr' & data' & ctx' & ctrl1 & addr1 & data1 & p7 & E2)
    end.
    rewrite E2. cbn [snd cpu].
    match goal with
    | |- context [set_r8 ?c ?i ?v] =>
        destruct (set_r8_frame c i v (proj2 Hi)) as (-> & -> & -> & _)
    end.
    destruct s as [c l]. destruct c. flatten. unfold step_frame. flatten.
    rewrite refresh_byte. repeat split. left. reflexivity.
  - cbn [exec_instr modify snd cpu].
    match goal with
    | |- context [set_r8 ?c ?i ?v] =>
        destruct (set_r8_frame c i v (proj2 (proj1 Hi))) as (-> & -> & -> & _)
    end.
    destruct s as [c l]. destruct c. flatten. unfold step_frame. flatten.
    rewrite refresh_byte. repeat split. left. reflexivity.
  - match goal with
    | |- context [exec_instr tick _ {| cpu := ?c; log := ?l |}] =>
        destruct (exec_ld_r_n dst c l)
          as (ctrl' & addr' & data' & ctx' & ctrl1 & addr1 & data1 & p7 & E2)
    end.
    rewrite E2. cbn [snd cpu].
    match goal with
    | |- context [set_r8 ?c ?i ?v] =>
        destruct (set_r8_frame c i v (proj2 Hi)) as (-> & -> & -> & _)
    end.
    destruct s as [c l]. destruct c. flatten. unfold step_frame. flatten.
    rewrite refresh_byte. repeat split. right. reflexivity.
  - cbn [exec_instr ret snd cpu].
    destruct s as [c l]. destruct c. flatten. unfold step_frame. flatten.
    rewrite refresh_byte. repeat split. left. reflexivity.
Qed.

(** *** The machine cycles on the bus, whatever the callback does *)

Lemma TICK_any {U} (k : unit -> M Ctx U) (c : z80 Ctx) (l : list pins) :
  exists c', c' = tick c /\
    bind (_TICK tick) k {| cpu := c; log := l |}
    = k tt {| cpu := set_ticks c' (bump (ticks c')); log := l ++ [pins_of c] |}.
Proof. exists (tick c). split; reflexivity. Qed.

Lemma TICK_last (c : z80 Ctx) (l : list pins) :
  exists c', c' = tick c /\
    _TICK tick {| cpu := c; log := l |}
    = (tt, {| cpu := set_ticks c' (bump (ticks c')); log := l ++ [pins_of c] |}).
Proof. exists (tick c). split; reflexivity. Qed.

Lemma pins_only_I_R (c : z80 Ctx) :
  pins_only tick -> I (tick c) = I c /\ R (tick c) = R c.
Proof. intros Hq. rewrite (Hq c). destruct c. split; reflexivity. Qed.

Ltac tick_any :=
  match goal with
  | |- context [bind (_TICK tick) ?k {| cpu := ?c; log := ?l |}] =>
      let c' := fresh "c" in
      let Ec := fresh "Ec" in
      let E := fresh "E" in
      destruct (TICK_any k c l) as (c' & Ec & E);
      rewrite E; clear E; destruct c'; flatten; run
  | |- context [_TICK tick {| cpu := ?c; log := ?l |}] =>
      let c' := fresh "c" in
      let Ec := fresh "Ec" in
      let E := fresh "E" in
      destruct (TICK_last c l) as (c' & Ec & E);
      rewrite E; clear E; destruct c'; flatten
  end.

Ltac pin_mask :=
  cbv beta iota delta [pin_ctrl pin_addr pin_data fst snd];
  first [ reflexivity
        | apply u16_lor_on; unfold is_u16; cbn; lia
        | apply u16_land_off
        | apply u16_off_on; reflexivity ].

(** X21. The M1 cycle on the bus, for any callback: [_z80_fetch] invokes
    it four times; it is shown M1 active and the old [PC] as address at
    T1, MREQ and RD active at T2, RFSH active with M1, MREQ and RD
    released at T3, MREQ active at T4, and RFSH and MREQ are released
    when the cycle is over.  If the callback keeps to the pins, the
    address at T3 is the refresh address: [I] in the high byte, the
    counted-up [R] in the low byte. *)
Theorem fetch_bus_cycle s :
  exists p1 p2 p3 p4,
    log (exec (_z80_fetch tick) s) = log s ++ [p1; p2; p3; p4] /\
    Z.land (pin_ctrl p1) Z80_M1 = Z80_M1 /\
    pin_addr p1 = PC (cpu s) /\
    Z.land (pin_ctrl p2) (Z.lor Z80_MREQ Z80_RD) = Z.lor Z80_MREQ Z80_RD /\
    Z.land (pin_ctrl p3) (Z.lor (Z.lor Z80_M1 Z80_MREQ) Z80_RD) = 0 /\
    Z.land (pin_ctrl p3) Z80_RFSH = Z80_RFSH /\
    Z.land (pin_ctrl p4) Z80_MREQ = Z80_MREQ /\
    Z.land (CTRL (cpu (exec (_z80_fetch tick) s))) (Z.lor Z80_RFSH Z80_MREQ) = 0 /\
    (pins_only tick ->
     pin_addr p3
     = Z.lor (Z.shiftl (I (cpu s)) 8)
             (Z.lor (Z.land (R (cpu s)) 0x80) (Z.land (R (cpu s) + 1) 0x7F))).
Proof.
  destruct s as [c l]. destruct c.
  unfold exec, _z80_fetch. flatten. run.
  tick_any. tick_any. tick_any. tick_any.
  do 4 eexists. repeat apply conj; try pin_mask.
  intros Hq. cbv beta iota delta [pin_addr fst snd].
  rewrite refresh_byte.
  repeat match goal with
         | Ec : _ = tick ?c0 |- _ =>
             let HI := fresh "HI" in
             let HR := fresh "HR" in
             destruct (pins_only_I_R c0 Hq) as (HI & HR);
             rewrite <- Ec in HI, HR; cbn [I R] in HI, HR; clear Ec
         end.
  subst. reflexivity.
Qed.

(** X22. The memory cycles on the bus, for any callback: [_z80_read]
    and [_z80_write] invoke it three times each; it is shown the address
    (cut to 16 bits) at T1; MREQ with RD, or MREQ with WR and the byte
    to store (cut to 8 bits) on the data pins, at T2; and both control
    pins released again at T3. *)
Theorem memory_bus_cycles s (addr data : Z) :
  (exists p1 p2 p3,
      log (exec (_z80_read tick addr) s) = log s ++ [p1; p2; p3] /\
      pin_addr p1 = u16 addr /\
      Z.land (pin_ctrl p2) (Z.lor Z80_MREQ Z80_RD) = Z.lor Z80_MREQ Z80_RD /\
      Z.land (pin_ctrl p3) (Z.lor Z80_MREQ Z80_RD) = 0) /\
  (exists p1 p2 p3,
      log (exec (_z80_write tick addr data) s) = log s ++ [p1; p2; p3] /\
      pin_addr p1 = u16 addr /\
      Z.land (pin_ctrl p2) (Z.lor Z80_MREQ Z80_WR) = Z.lor Z80_MREQ Z80_WR /\
      pin_data p2 = u8 data /\
      Z.land (pin_ctrl p3) (Z.lor Z80_MREQ Z80_WR) = 0).
Proof.
  destruct s as [c l]. destruct c. split.
  - unfold exec, _z80_read. flatten. run.
    tick_any. tick_any. tick_any.
    do 3 eexists. repeat apply conj; pin_mask.
  - unfold exec, _z80_write. flatten. run.
    tick_any. tick_any. tick_any.
    do 3 eexists. repeat apply conj; pin_mask.
Qed.

(** *** HALT *)

(** C9. Opcode [0x76] is recognised as HALT ahead of [LD (HL),r], and
    the step runs no write cycle: the callback is invoked for the four
    cycles of the fetch only.  But no halt takes place.  [_z80_halt] has
    an empty body, so the whole step is the opcode fetch: with a
    callback that keeps to the pins it returns 4, moves [PC] on to the
    next opcode and changes no register but [R], just as a NOP does; and
    with a callback that does not drive the HALT pin, that pin is after
    the step as it was before. *)
Theorem halt_step_only_fetches s :
  opcode_of tick s = 0x76 ->
  _z80_op tick (exec (step_fetch tick) s) = _z80_halt (exec (step_fetch tick) s) /\
  (exists p1 p2 p3 p4, log (exec (z80_step tick) s) = log s ++ [p1; p2; p3; p4]) /\
  exec (z80_step tick) s = exec (step_fetch tick) s /\
  (pins_only tick ->
   eval (z80_step tick) s = 4 /\
   PC (cpu (exec (z80_step tick) s)) = u16 (PC (cpu s) + 1) /\
   nop_frame (cpu (exec (z80_step tick) s)) = nop_frame (cpu s)) /\
  ((forall c, Z.land (CTRL (tick c)) Z80_HALT = Z.land (CTRL c) Z80_HALT) ->
   Z.land (CTRL (cpu (exec (z80_step tick) s))) Z80_HALT
   = Z.land (CTRL (cpu s)) Z80_HALT).
Proof.
  intros Hop.
  destruct (halt_decoded tick s Hop) as (Hd & Hs & _ & Hlog).
  assert (Hstep : exec (z80_step tick) s = exec (step_fetch tick) s)
    by (rewrite Hs; apply exec_halt).
  split; [exact Hd |]. split; [exact Hlog |]. split; [exact Hstep |].
  split.
  - intros Hq.
    destruct (step_fetch_exec tick s Hq)
      as (ctrl & addr & data & ctx & p1 & p2 & p3 & p4 & E).
    rewrite eval_step, Hstep, E.
    destruct s as [c l]. destruct c. flatten. unfold nop_frame. flatten.
    repeat split; reflexivity.
  - intros Hh. rewrite Hstep. clear Hop Hd Hs Hlog Hstep.
    assert (Hk : is_u16 Z80_HALT) by (unfold is_u16; cbn; lia).
    destruct s as [c l]. destruct c.
    unfold exec, step_fetch, _z80_fetch. flatten. run.
    tick_any. tick_any. tick_any. tick_any.
    cbn [snd].  flatten.
    repeat match goal with
           | Ec : _ = tick ?c0 |- _ =>
               let Hc := fresh "Hc" in
               pose proof (Hh c0) as Hc;
               rewrite <- Ec in Hc; cbn [CTRL] in Hc; clear Ec
           end.
    repeat first
      [ rewrite u16_lor_other in * by (exact Hk || reflexivity)
      | rewrite u16_land_other in * by (exact Hk || reflexivity) ].
    congruence.
Qed.

End Loads.

(** ** The control pin functions *)

Section Pins.

Context {Ctx : Type}.
Implicit Types cpu : z80 Ctx.

Lemma u16_fits x : is_u16 x -> Z.land x 0xFFFF = x.
Proof. intros Hx. apply (land_ones_small 16); [lia | exact Hx]. Qed.

(** X23. On 16-bit pin masks: after [z80_on] all the pins named are
    active, after [z80_off] none of them is, neither function touches a
    pin it was not given, switching pins on and then off again is the
    same as switching them off, and for the empty mask [z80_all] holds
    and [z80_any] does not. *)
Theorem control_pins cpu (pins : Z) :
  is_u16 (CTRL cpu) -> is_u16 pins ->
  z80_all (z80_on cpu pins) pins = true /\
  z80_any (z80_off cpu pins) pins = false /\
  Z.land (CTRL (z80_on cpu pins)) (Z.lnot pins)
    = Z.land (CTRL cpu) (Z.lnot pins) /\
  Z.land (CTRL (z80_off cpu pins)) (Z.lnot pins)
    = Z.land (CTRL cpu) (Z.lnot pins) /\
  CTRL (z80_off (z80_on cpu pins) pins) = CTRL (z80_off cpu pins) /\
  z80_all cpu 0 = true /\ z80_any cpu 0 = false.
Proof.
  intros Hc Hm.
  unfold z80_all, z80_any, z80_on, z80_off. cbn [CTRL set_CTRL].
  rewrite u16_lor_on by exact Hm. rewrite u16_land_off.
  rewrite Z.land_0_r, Z.eqb_refl.
  repeat apply conj; try reflexivity.
  - rewrite <- (u16_fits _ Hc) at 2.
    apply Z.bits_inj'. intros n Hn.
    rewrite u16_land, !Z.land_spec, Z.lor_spec, Z.lnot_spec by exact Hn.
    destruct (Z.testbit (CTRL cpu) n), (Z.testbit pins n),
      (Z.testbit 0xFFFF n); reflexivity.
  - rewrite <- (u16_fits _ Hc) at 2.
    apply Z.bits_inj'. intros n Hn.
    rewrite u16_land, !Z.land_spec, Z.lnot_spec by exact Hn.
    destruct (Z.testbit (CTRL cpu) n), (Z.testbit pins n),
      (Z.testbit 0xFFFF n); reflexivity.
  - apply Z.bits_inj'. intros n Hn.
    rewrite !u16_land, !Z.land_spec, Z.lor_spec, Z.lnot_spec by exact Hn.
    destruct (Z.testbit (CTRL cpu) n), (Z.testbit pins n),
      (Z.testbit 0xFFFF n); reflexivity.
Qed.

End Pins.

(** INT raised on a power-on CPU. *)
Lemma control_pins_witness :
  is_u16 (CTRL acc_10) /\ is_u16 Z80_INT /\
  z80_all (z80_on acc_10 Z80_INT) Z80_INT = true /\
  z80_any (z80_off acc_10 Z80_INT) Z80_INT = false /\
  Z.land (CTRL (z80_on acc_10 Z80_INT)) (Z.lnot Z80_INT)
    = Z.land (CTRL acc_10) (Z.lnot Z80_INT) /\
  Z.land (CTRL (z80_off acc_10 Z80_INT)) (Z.lnot Z80_INT)
    = Z.land (CTRL acc_10) (Z.lnot Z80_INT) /\
  CTRL (z80_off (z80_on acc_10 Z80_INT) Z80_INT) = CTRL (z80_off acc_10 Z80_INT) /\
  z80_all acc_10 0 = true /\ z80_any acc_10 0 = false.
Proof.
  assert (Hc : is_u16 (CTRL acc_10)) by (unfold is_u16; cbn; lia).
  assert (Hm : is_u16 Z80_INT) by (unfold is_u16; cbn; lia).
  split; [exact Hc |]. split; [exact Hm |].
  exact (control_pins acc_10 Z80_INT Hc Hm).
Defined.

(** ** Concrete runs of the decoder *)

Lemma register_codes_witness :
  0 <= 7 < 8 /\ 7 <> 6 /\
  reg_code acc_10 7 = Some (r8 acc_10 (Z.lxor 7 1)) /\
  0 <= Z.lxor 7 1 < 7 /\
  r8 acc_10 (Z.lxor 6 1) = F acc_10.
Proof.
  assert (Hk : 0 <= 7 < 8) by lia. assert (H6 : 7 <> 6) by lia.
  split; [exact Hk |]. split; [exact H6 |].
  exact (register_codes acc_10 7 Hk H6).
Defined.

(** [LD B,C], as the decoder finds it after the fetch. *)
Lemma ld_r_r_op_witness :
  0 <= 0 < 8 /\ 0 <> 6 /\ 0 <= 1 < 8 /\ 1 <> 6 /\
  DATA (cpu (exec (step_fetch ram_tick) boot_ld_b_c)) = 0x40 + 8 * 0 + 1 /\
  reg_code (cpu (exec (_z80_op ram_tick) (exec (step_fetch ram_tick) boot_ld_b_c))) 0
    = reg_code (cpu (exec (step_fetch ram_tick) boot_ld_b_c)) 1 /\
  (forall k, 0 <= k < 8 -> k <> 0 ->
     reg_code (cpu (exec (_z80_op ram_tick) (exec (step_fetch ram_tick) boot_ld_b_c))) k
     = reg_code (cpu (exec (step_fetch ram_tick) boot_ld_b_c)) k) /\
  step_frame (cpu (exec (_z80_op ram_tick) (exec (step_fetch ram_tick) boot_ld_b_c)))
    = step_frame (cpu (exec (step_fetch ram_tick) boot_ld_b_c)) /\
  PC (cpu (exec (_z80_op ram_tick) (exec (step_fetch ram_tick) boot_ld_b_c))) = PC (cpu (exec (step_fetch ram_tick) boot_ld_b_c)) /\
  ticks (cpu (exec (_z80_op ram_tick) (exec (step_fetch ram_tick) boot_ld_b_c))) = ticks (cpu (exec (step_fetch ram_tick) boot_ld_b_c)) /\
  log (exec (_z80_op ram_tick) (exec (step_fetch ram_tick) boot_ld_b_c)) = log (exec (step_fetch ram_tick) boot_ld_b_c) /\
  (0 = 1 -> exec (_z80_op ram_tick) (exec (step_fetch ram_tick) boot_ld_b_c) = (exec (step_fetch ram_tick) boot_ld_b_c)) /\
  R (cpu (exec (_z80_op ram_tick) (exec (step_fetch ram_tick) boot_ld_b_c))) = R (cpu (exec (step_fetch ram_tick) boot_ld_b_c)) /\
  pins_of (cpu (exec (_z80_op ram_tick) (exec (step_fetch ram_tick) boot_ld_b_c))) = pins_of (cpu (exec (step_fetch ram_tick) boot_ld_b_c)) /\
  context (cpu (exec (_z80_op ram_tick) (exec (step_fetch ram_tick) boot_ld_b_c))) = context (cpu (exec (step_fetch ram_tick) boot_ld_b_c)).
Proof.
  assert (Hy : 0 <= 0 < 8) by lia. assert (Hy6 : 0 <> 6) by lia.
  assert (Hz : 0 <= 1 < 8) by lia. assert (Hz6 : 1 <> 6) by lia.
  assert (Hop : DATA (cpu (exec (step_fetch ram_tick) boot_ld_b_c)) = 0x40 + 8 * 0 + 1) by reflexivity.
  split; [exact Hy |]. split; [exact Hy6 |].
  split; [exact Hz |]. split; [exact Hz6 |]. split; [exact Hop |].
  exact (ld_r_r_op ram_tick (exec (step_fetch ram_tick) boot_ld_b_c) 0 1 Hy Hy6 Hz Hz6 Hop).
Defined.

(** [ADD A,B], opcode [0x80], as the decoder finds it after the fetch. *)
Lemma unimplemented_op_witness :
  is_u8 (DATA (cpu (exec (step_fetch ram_tick) (boot (filled 0x80))))) /\
  (load_opcode (DATA (cpu (exec (step_fetch ram_tick) (boot (filled 0x80))))) = false ->
   _z80_op ram_tick (exec (step_fetch ram_tick) (boot (filled 0x80))) = (tt, (exec (step_fetch ram_tick) (boot (filled 0x80))))) /\
  (128 <= DATA (cpu (exec (step_fetch ram_tick) (boot (filled 0x80)))) ->
   _z80_op ram_tick (exec (step_fetch ram_tick) (boot (filled 0x80))) = (tt, (exec (step_fetch ram_tick) (boot (filled 0x80))))).
Proof.
  assert (Hd : is_u8 (DATA (cpu (exec (step_fetch ram_tick) (boot (filled 0x80)))))).
  { change (DATA (cpu (exec (step_fetch ram_tick) (boot (filled 0x80))))) with 0x80. unfold is_u8. lia. }
  split; [exact Hd |].
  exact (unimplemented_op ram_tick (exec (step_fetch ram_tick) (boot (filled 0x80))) Hd).
Defined.

Example add_a_b_demo :
  exec (z80_step ram_tick) (boot (filled 0x80))
  = exec (step_fetch ram_tick) (boot (filled 0x80)) /\
  eval (z80_step ram_tick) (boot (filled 0x80)) = 4.
Proof. split; vm_compute; reflexivity. Qed.

(** [LD B,(HL)] from power-on. *)
Lemma step_cycle_table_witness :
  is_u8 (opcode_of ram_tick (boot (filled 0x46))) /\
  (exists new,
      log (exec (z80_step ram_tick) (boot (filled 0x46))) = log (boot (filled 0x46)) ++ new /\
      length new = if bus_opcode (opcode_of ram_tick (boot (filled 0x46))) then 7%nat else 4%nat) /\
  (keeps_ticks ram_tick ->
   eval (z80_step ram_tick) (boot (filled 0x46))
   = if bus_opcode (opcode_of ram_tick (boot (filled 0x46))) then 7 else 4).
Proof.
  assert (Hd : is_u8 (opcode_of ram_tick (boot (filled 0x46)))).
  { change (opcode_of ram_tick (boot (filled 0x46))) with 0x46. unfold is_u8. lia. }
  split; [exact Hd |].
  exact (step_cycle_table ram_tick (boot (filled 0x46)) Hd).
Defined.

Lemma ld_r_hl_step_witness :
  pins_only ram_tick /\ 0 <= 0 < 8 /\ 0 <> 6 /\
  opcode_of ram_tick (boot (filled 0x46)) = 0x46 + 8 * 0 /\
  eval (z80_step ram_tick) (boot (filled 0x46)) = 7 /\
  reg_code (cpu (exec (z80_step ram_tick) (boot (filled 0x46)))) 0 = Some (DATA (cpu (exec (z80_step ram_tick) (boot (filled 0x46))))) /\
  (forall k, 0 <= k < 8 -> k <> 0 ->
     reg_code (cpu (exec (z80_step ram_tick) (boot (filled 0x46)))) k = reg_code (cpu (boot (filled 0x46))) k) /\
  step_frame (cpu (exec (z80_step ram_tick) (boot (filled 0x46)))) = step_frame (cpu (boot (filled 0x46))) /\
  PC (cpu (exec (z80_step ram_tick) (boot (filled 0x46)))) = u16 (PC (cpu (boot (filled 0x46))) + 1) /\
  exists p1 p2 p3 p4 p5 p6 p7,
    log (exec (z80_step ram_tick) (boot (filled 0x46))) = log (boot (filled 0x46)) ++ [p1; p2; p3; p4; p5; p6; p7] /\
    pin_addr p5 = u16 (HL (cpu (boot (filled 0x46)))) /\
    Z.land (pin_ctrl p6) (Z.lor Z80_MREQ Z80_RD) = Z.lor Z80_MREQ Z80_RD.
Proof.
  assert (Hp := ram_tick_pins_only).
  assert (Hy : 0 <= 0 < 8) by lia. assert (Hy6 : 0 <> 6) by lia.
  assert (Hop : opcode_of ram_tick (boot (filled 0x46)) = 0x46 + 8 * 0) by reflexivity.
  split; [exact Hp |]. split; [exact Hy |]. split; [exact Hy6 |].
  split; [exact Hop |].
  exact (ld_r_hl_step ram_tick Hp (boot (filled 0x46)) 0 Hy Hy6 Hop).
Defined.

Example ld_b_hl_demo :
  let s' := exec (z80_step ram_tick) (boot (filled 0x46)) in
  (B (cpu (boot (filled 0x46))), B (cpu s'), PC (cpu s'), eval (z80_step ram_tick) (boot (filled 0x46)))
  = (0x00, 0x46, 1, 7).
Proof. reflexivity. Qed.

(** [LD B,n] from power-on. *)
Lemma ld_r_n_step_witness :
  pins_only ram_tick /\ 0 <= 0 < 8 /\ 0 <> 6 /\
  opcode_of ram_tick (boot (filled 0x06)) = 0x06 + 8 * 0 /\
  eval (z80_step ram_tick) (boot (filled 0x06)) = 7 /\
  reg_code (cpu (exec (z80_step ram_tick) (boot (filled 0x06)))) 0 = Some (DATA (cpu (exec (z80_step ram_tick) (boot (filled 0x06))))) /\
  (forall k, 0 <= k < 8 -> k <> 0 ->
     reg_code (cpu (exec (z80_step ram_tick) (boot (filled 0x06)))) k = reg_code (cpu (boot (filled 0x06))) k) /\
  step_frame (cpu (exec (z80_step ram_tick) (boot (filled 0x06)))) = step_frame (cpu (boot (filled 0x06))) /\
  PC (cpu (exec (z80_step ram_tick) (boot (filled 0x06)))) = u16 (u16 (PC (cpu (boot (filled 0x06))) + 1) + 1) /\
  exists p1 p2 p3 p4 p5 p6 p7,
    log (exec (z80_step ram_tick) (boot (filled 0x06))) = log (boot (filled 0x06)) ++ [p1; p2; p3; p4; p5; p6; p7] /\
    pin_addr p5 = u16 (PC (cpu (boot (filled 0x06))) + 1) /\
    Z.land (pin_ctrl p6) (Z.lor Z80_MREQ Z80_RD) = Z.lor Z80_MREQ Z80_RD.
Proof.
  assert (Hp := ram_tick_pins_only).
  assert (Hy : 0 <= 0 < 8) by lia. assert (Hy6 : 0 <> 6) by lia.
  assert (Hop : opcode_of ram_tick (boot (filled 0x06)) = 0x06 + 8 * 0) by reflexivity.
  split; [exact Hp |]. split; [exact Hy |]. split; [exact Hy6 |].
  split; [exact Hop |].
  exact (ld_r_n_step ram_tick Hp (boot (filled 0x06)) 0 Hy Hy6 Hop).
Defined.

Example ld_b_n_demo :
  let s' := exec (z80_step ram_tick) (boot (filled 0x06)) in
  (B (cpu s'), PC (cpu s'), eval (z80_step ram_tick) (boot (filled 0x06))) = (0x06, 2, 7).
Proof. reflexivity. Qed.

(** [LD (HL),B] from power-on. *)
Lemma ld_hl_r_step_witness :
  pins_only ram_tick /\ 0 <= 0 < 8 /\ 0 <> 6 /\
  opcode_of ram_tick (boot (filled 0x70)) = 0x70 + 0 /\
  eval (z80_step ram_tick) (boot (filled 0x70)) = 7 /\
  nop_frame (cpu (exec (z80_step ram_tick) (boot (filled 0x70)))) = nop_frame (cpu (boot (filled 0x70))) /\
  PC (cpu (exec (z80_step ram_tick) (boot (filled 0x70)))) = u16 (PC (cpu (boot (filled 0x70))) + 1) /\
  exists p1 p2 p3 p4 p5 p6 p7,
    log (exec (z80_step ram_tick) (boot (filled 0x70))) = log (boot (filled 0x70)) ++ [p1; p2; p3; p4; p5; p6; p7] /\
    pin_addr p5 = u16 (HL (cpu (boot (filled 0x70)))) /\
    Z.land (pin_ctrl p6) (Z.lor Z80_MREQ Z80_WR) = Z.lor Z80_MREQ Z80_WR /\
    exists v, reg_code (cpu (boot (filled 0x70))) 0 = Some v /\ pin_data p6 = u8 v.
Proof.
  assert (Hp := ram_tick_pins_only).
  assert (Hz : 0 <= 0 < 8) by lia. assert (Hz6 : 0 <> 6) by lia.
  assert (Hop : opcode_of ram_tick (boot (filled 0x70)) = 0x70 + 0) by reflexivity.
  split; [exact Hp |]. split; [exact Hz |]. split; [exact Hz6 |].
  split; [exact Hop |].
  exact (ld_hl_r_step ram_tick Hp (boot (filled 0x70)) 0 Hz Hz6 Hop).
Defined.

(** The step on [LD B,n], the one opcode that moves [PC] by two. *)
Lemma step_any_opcode_witness :
  pins_only ram_tick /\
  step_frame (cpu (exec (z80_step ram_tick) (boot (filled 0x06)))) = step_frame (cpu (boot (filled 0x06))) /\
  R (cpu (exec (z80_step ram_tick) (boot (filled 0x06))))
    = Z.lor (Z.land (R (cpu (boot (filled 0x06)))) 0x80) (Z.land (R (cpu (boot (filled 0x06))) + 1) 0x7F) /\
  (PC (cpu (exec (z80_step ram_tick) (boot (filled 0x06)))) = u16 (PC (cpu (boot (filled 0x06))) + 1) \/
   PC (cpu (exec (z80_step ram_tick) (boot (filled 0x06)))) = u16 (u16 (PC (cpu (boot (filled 0x06))) + 1) + 1)).
Proof.
  assert (Hp := ram_tick_pins_only).
  split; [exact Hp |].
  exact (step_any_opcode ram_tick Hp (boot (filled 0x06))).
Defined.

(** The M1 cycle from power-on, with the RAM host. *)
Lemma fetch_bus_cycle_witness :
  pins_only ram_tick /\
  exists p1 p2 p3 p4,
    log (exec (_z80_fetch ram_tick) (boot (filled 0x00))) = log (boot (filled 0x00)) ++ [p1; p2; p3; p4] /\
    Z.land (pin_ctrl p1) Z80_M1 = Z80_M1 /\
    pin_addr p1 = PC (cpu (boot (filled 0x00))) /\
    Z.land (pin_ctrl p2) (Z.lor Z80_MREQ Z80_RD) = Z.lor Z80_MREQ Z80_RD /\
    Z.land (pin_ctrl p3) (Z.lor (Z.lor Z80_M1 Z80_MREQ) Z80_RD) = 0 /\
    Z.land (pin_ctrl p3) Z80_RFSH = Z80_RFSH /\
    Z.land (pin_ctrl p4) Z80_MREQ = Z80_MREQ /\
    Z.land (CTRL (cpu (exec (_z80_fetch ram_tick) (boot (filled 0x00)))))
           (Z.lor Z80_RFSH Z80_MREQ) = 0 /\
    (pins_only ram_tick ->
     pin_addr p3
     = Z.lor (Z.shiftl (I (cpu (boot (filled 0x00)))) 8)
             (Z.lor (Z.land (R (cpu (boot (filled 0x00)))) 0x80)
                    (Z.land (R (cpu (boot (filled 0x00))) + 1) 0x7F))).
Proof.
  split; [exact ram_tick_pins_only |].
  exact (fetch_bus_cycle ram_tick (boot (filled 0x00))).
Defined.

Example fetch_demo :
  log (exec (_z80_fetch ram_tick) (boot (filled 0x00)))
  = [(Z80_M1, 0, 0);
     (Z.lor Z80_M1 (Z.lor Z80_MREQ Z80_RD), 0, 0);
     (Z80_RFSH, 1, 0);
     (Z.lor Z80_RFSH Z80_MREQ, 1, 0)].
Proof. reflexivity. Qed.

(** The RAM host never drives the control pins. *)
Lemma ram_tick_keeps_ctrl (c : z80 (Z -> Z)) : CTRL (ram_tick c) = CTRL c.
Proof.
  unfold ram_tick.
  destruct (z80_all c _); [destruct c; reflexivity |].
  destruct (z80_all c _); destruct c; reflexivity.
Qed.

(** HALT from power-on, over a memory of HALTs, with the RAM host: a
    callback that keeps to the pins and does not drive HALT. *)
Lemma halt_step_only_fetches_witness :
  opcode_of ram_tick (boot (filled 0x76)) = 0x76 /\
  pins_only ram_tick /\
  (forall c, Z.land (CTRL (ram_tick c)) Z80_HALT = Z.land (CTRL c) Z80_HALT) /\
  _z80_op ram_tick (exec (step_fetch ram_tick) (boot (filled 0x76)))
    = _z80_halt (exec (step_fetch ram_tick) (boot (filled 0x76))) /\
  (exists p1 p2 p3 p4,
      log (exec (z80_step ram_tick) (boot (filled 0x76))) = log (boot (filled 0x76)) ++ [p1; p2; p3; p4]) /\
  exec (z80_step ram_tick) (boot (filled 0x76)) = exec (step_fetch ram_tick) (boot (filled 0x76)) /\
  (pins_only ram_tick ->
   eval (z80_step ram_tick) (boot (filled 0x76)) = 4 /\
   PC (cpu (exec (z80_step ram_tick) (boot (filled 0x76)))) = u16 (PC (cpu (boot (filled 0x76))) + 1) /\
   nop_frame (cpu (exec (z80_step ram_tick) (boot (filled 0x76)))) = nop_frame (cpu (boot (filled 0x76)))) /\
  ((forall c, Z.land (CTRL (ram_tick c)) Z80_HALT = Z.land (CTRL c) Z80_HALT) ->
   Z.land (CTRL (cpu (exec (z80_step ram_tick) (boot (filled 0x76))))) Z80_HALT
   = Z.land (CTRL (cpu (boot (filled 0x76)))) Z80_HALT).
Proof.
  assert (Hop : opcode_of ram_tick (boot (filled 0x76)) = 0x76) by reflexivity.
  split; [exact Hop |]. split; [exact ram_tick_pins_only |].
  split; [intros c; rewrite ram_tick_keeps_ctrl; reflexivity |].
  exact (halt_step_only_fetches ram_tick (boot (filled 0x76)) Hop).
Defined.

(** Two steps from power-on over a memory of HALTs: the HALT pin is
    never active, and the second step fetches at address 1 and leaves
    [PC] at 2. *)
Example halt_runs_on :
  let s1 := exec (z80_step ram_tick) (boot (filled 0x76)) in
  let s2 := exec (z80_step ram_tick) s1 in
  (z80_any (cpu s1) Z80_HALT, PC (cpu s1),
   z80_any (cpu s2) Z80_HALT, PC (cpu s2), length (log s2),
   map pin_addr (firstn 1 (skipn 4 (log s2))))
  = (false, 1, false, 2, 8%nat, [1]).
Proof. vm_compute. reflexivity. Qed.

End Z80_Spec.
